(** * TFHMM: the Gaussian-mixture EM engine of HMM.ipynb

    A shallow embedding of the class [TFHMM] of the notebook (methods
    [__init__], [fit], [predict], [_compute_log_likelihood]) together with
    the part of the TensorFlow tensor semantics those methods rely on.

    Scalars.  The notebook computes in float32.  Here a scalar is a real
    number ([R]): rounding, overflow and underflow are not modelled, and
    every statement below is a statement of exact real arithmetic.  Two
    places where [R] and IEEE arithmetic disagree are kept out of the
    statements: a quotient with a zero divisor and the logarithm of a
    non-positive number have a conventional value in [R] where a float has
    an infinity or a NaN.  Statements about division by zero are therefore
    statements about the divisor.  A third place is the exponential,
    which is positive in [R] and underflows to 0 in float32: the statements
    about one E-step or one M-step assume what they need of the variances,
    the start probabilities and the responsibilities they start from. *)

From Stdlib Require Import Reals Lra Lia List ZArith Bool PeanoNat.
Import ListNotations.

Local Open Scope R_scope.

(** ** Exceptions and the result monad *)

(** The Python exceptions the modelled code can raise. *)
Inductive exn : Set :=
| TypeError             (* an attribute that is still [None] is indexed *)
| ValueError            (* unpacking a shape of the wrong rank, assigning a
                           value of another shape to a variable, a negative
                           dimension *)
| InvalidArgumentError. (* TensorFlow: incompatible shapes, empty axis *)

Inductive result (A : Type) : Type :=
| Ok (a : A)
| Raise (e : exn).

Arguments Ok {A} a.
Arguments Raise {A} e.

Definition bind {A B : Type} (m : result A) (k : A -> result B) : result B :=
  match m with
  | Ok a => k a
  | Raise e => Raise e
  end.

Notation "x <- m ;; k" := (bind m (fun x => k))
  (at level 61, m at next level, right associativity).
Notation "' pat <- m ;; k" := (bind m (fun x => match x with pat => k end))
  (at level 61, pat pattern, m at next level, right associativity).

Definition succeeds {A : Type} (m : result A) : Prop := exists a, m = Ok a.

(** ** Finite sums and maxima over an index range *)

(** [sum_upto n f] is [f 0 + ... + f (n-1)]. *)
Fixpoint sum_upto (n : nat) (f : nat -> R) : R :=
  match n with
  | O => 0
  | S m => sum_upto m f + f m
  end.

(** [max_upto n f] is the largest of [f 0 ... f (n-1)]; 0 on an empty
    range (TensorFlow replaces the non-finite maximum of an empty axis by
    0 inside reduce_logsumexp). *)
Fixpoint max_upto (n : nat) (f : nat -> R) : R :=
  match n with
  | O => 0
  | S O => f O
  | S m => Rmax (max_upto m f) (f m)
  end.

(** The boolean test [x > y] on scalars. *)
Definition Rgtb (x y : R) : bool := if Rgt_dec x y then true else false.

(** [argmax_upto n f]: the first index below [n] at which [f] is largest
    (0 on an empty range): a left-to-right scan that moves only on a
    strictly larger value, so that among equal values the smallest index
    is returned, as tf.argmax documents. *)
Fixpoint argmax_upto (n : nat) (f : nat -> R) : nat :=
  match n with
  | O => O
  | S m => let b := argmax_upto m f in
           if Rgtb (f m) (f b) then m else b
  end.

(** ** Tensors *)

Module TF.

(** A dense tensor: its static shape and its entries, read by a
    multi-index with one position per axis.  Only the entries at indices
    within the shape are meaningful. *)
Record Tensor : Type := mkTensor {
  shape : list nat;
  get : list nat -> R
}.

Definition rank (t : Tensor) : nat := length (shape t).

(** [in_range s idx]: [idx] is a valid index of a tensor of shape [s]. *)
Definition in_range (s idx : list nat) : Prop := Forall2 lt idx s.

(** Two tensors with the same shape and the same entries within it. *)
Definition same_tensor (a b : Tensor) : Prop :=
  shape a = shape b /\ forall idx, in_range (shape a) idx -> get a idx = get b idx.

Fixpoint insert_at {A : Type} (axis : nat) (x : A) (l : list A) : list A :=
  match axis, l with
  | O, _ => x :: l
  | S a, [] => [x]
  | S a, y :: l' => y :: insert_at a x l'
  end.

Fixpoint remove_at {A : Type} (axis : nat) (l : list A) : list A :=
  match axis, l with
  | _, [] => []
  | O, _ :: l' => l'
  | S a, y :: l' => y :: remove_at a l'
  end.

Fixpoint replace_at {A : Type} (axis : nat) (x : A) (l : list A) : list A :=
  match axis, l with
  | _, [] => []
  | O, _ :: l' => x :: l'
  | S a, y :: l' => y :: replace_at a x l'
  end.

(** A new axis of size 1 at position [axis]. *)
Definition expand_dims (t : Tensor) (axis : nat) : Tensor :=
  mkTensor (insert_at axis 1%nat (shape t))
           (fun idx => get t (remove_at axis idx)).

(** A subscript made of full slices [:] and one [tf.newaxis] at position
    [axis], [slices] full slices in all: [t[:, tf.newaxis, :]] is
    [newaxis_at t 1 2].  More slices than the tensor has axes is an error;
    axes that are not named are kept. *)
Definition newaxis_at (t : Tensor) (axis slices : nat) : result Tensor :=
  if Nat.ltb (rank t) slices then Raise InvalidArgumentError
  else Ok (expand_dims t axis).

(** *** Broadcasting *)

(** Two dimensions are compatible when they are equal or one of them is 1. *)
Definition broadcast_dim (a b : nat) : result nat :=
  if Nat.eqb a b then Ok a
  else if Nat.eqb a 1 then Ok b
  else if Nat.eqb b 1 then Ok a
  else Raise InvalidArgumentError.

(** Shapes are aligned at their last axis; the argument lists are reversed
    shapes. *)
Fixpoint broadcast_rev (s1 s2 : list nat) : result (list nat) :=
  match s1, s2 with
  | [], _ => Ok s2
  | _, [] => Ok s1
  | a :: s1', b :: s2' =>
      d <- broadcast_dim a b ;;
      r <- broadcast_rev s1' s2' ;;
      Ok (d :: r)
  end.

Definition broadcast_shapes (s1 s2 : list nat) : result (list nat) :=
  r <- broadcast_rev (rev s1) (rev s2) ;; Ok (rev r).

Fixpoint clamp_rev (s idx : list nat) : list nat :=
  match s, idx with
  | d :: s', i :: idx' => (if Nat.eqb d 1 then O else i) :: clamp_rev s' idx'
  | _, _ => []
  end.

(** The index of an operand of shape [s] that feeds the entry [idx] of a
    broadcast result: the trailing positions of [idx], with 0 on the axes
    where the operand has size 1. *)
Definition bidx (s idx : list nat) : list nat :=
  rev (clamp_rev (rev s) (rev idx)).

(** An elementwise binary operation with broadcasting. *)
Definition binop (f : R -> R -> R) (a b : Tensor) : result Tensor :=
  s <- broadcast_shapes (shape a) (shape b) ;;
  Ok (mkTensor s (fun idx => f (get a (bidx (shape a) idx))
                               (get b (bidx (shape b) idx)))).

Definition add := binop Rplus.
Definition subtract := binop Rminus.
Definition multiply := binop Rmult.
Definition divide := binop Rdiv.

(** An elementwise unary operation. *)
Definition unop (f : R -> R) (a : Tensor) : Tensor :=
  mkTensor (shape a) (fun idx => f (get a idx)).

(** [c * t] for a Python scalar [c]. *)
Definition scale (c : R) : Tensor -> Tensor := unop (Rmult c).
(** [t ** 2]. *)
Definition square : Tensor -> Tensor := unop (fun x => x * x).
(** [tf.math.log]. *)
Definition log : Tensor -> Tensor := unop ln.
(** [tf.exp]. *)
Definition exp : Tensor -> Tensor := unop Rtrigo_def.exp.

(** *** Reductions *)

Definition check_axis (t : Tensor) (axis : nat) : result unit :=
  if Nat.ltb axis (rank t) then Ok tt else Raise InvalidArgumentError.

(** A reduction along [axis]: the axis disappears from the shape. *)
Definition reduce (op : nat -> (nat -> R) -> R) (t : Tensor) (axis : nat)
  : result Tensor :=
  _ <- check_axis t axis ;;
  Ok (mkTensor (remove_at axis (shape t))
               (fun idx => op (nth axis (shape t) O)
                              (fun j => get t (insert_at axis j idx)))).

(** [tf.reduce_sum(t, axis)]. *)
Definition reduce_sum := reduce sum_upto.

(** [tf.reduce_logsumexp(t, axis)]: the largest entry along the axis is
    subtracted before exponentiating and added back after the logarithm. *)
Definition reduce_logsumexp (t : Tensor) (axis : nat) : result Tensor :=
  _ <- check_axis t axis ;;
  Ok (mkTensor (remove_at axis (shape t))
        (fun idx =>
           let col := fun j => get t (insert_at axis j idx) in
           let n := nth axis (shape t) O in
           let my_max := max_upto n col in
           ln (sum_upto n (fun j => Rtrigo_def.exp (col j - my_max))) + my_max)).

(** [tf.nn.softmax(t, axis)]: exponentiate, divide by the sum along the
    axis.  The default axis, -1, is [rank t - 1]. *)
Definition softmax (t : Tensor) (axis : nat) : result Tensor :=
  _ <- check_axis t axis ;;
  Ok (mkTensor (shape t)
        (fun idx =>
           Rtrigo_def.exp (get t idx) /
           sum_upto (nth axis (shape t) O)
                    (fun j => Rtrigo_def.exp (get t (replace_at axis j idx))))).

(** [tf.matmul(a, b)] for two matrices (the products of TFHMM are
    products of matrices; batches of matrices are not modelled). *)
Definition matmul (a b : Tensor) : result Tensor :=
  match shape a, shape b with
  | [m; p], [p'; q] =>
      if Nat.eqb p p'
      then Ok (mkTensor [m; q]
                 (fun idx => match idx with
                             | [i; l] => sum_upto p (fun j => get a [i; j] * get b [j; l])
                             | _ => 0
                             end))
      else Raise InvalidArgumentError
  | _, _ => Raise InvalidArgumentError
  end.

(** [tf.argmax(t, axis=0).numpy()] for a matrix: one index per column, the
    first row at which the column is largest.  An empty reduction axis is
    an error.  (The log-likelihood of TFHMM is a matrix whenever the
    parameters and the observations are; other ranks are not modelled and
    no statement below uses them.) *)
Definition argmax_axis0 (t : Tensor) : result (list nat) :=
  match shape t with
  | [k; n] =>
      if Nat.eqb k 0 then Raise InvalidArgumentError
      else Ok (map (fun i => argmax_upto k (fun c => get t [c; i])) (seq 0 n))
  | _ => Raise InvalidArgumentError
  end.

(** The tensor of a list of numbers and of a list of rows of [d] numbers
    ([tf.convert_to_tensor] of a rectangular array). *)
Definition of_list (l : list R) : Tensor :=
  mkTensor [length l]
    (fun idx => match idx with
                | [i] => nth i l 0
                | _ => 0
                end).

Definition of_rows (d : nat) (rows : list (list R)) : Tensor :=
  mkTensor [length rows; d]
    (fun idx => match idx with
                | [i; j] => nth j (nth i rows []) 0
                | _ => 0
                end).

(** [tf.ones(shape)]. *)
Definition ones (s : list nat) : Tensor := mkTensor s (fun _ => 1).

(** *** Variables *)

(** [var.assign(value)]: the value must have the variable's shape. *)
Definition assign (var value : Tensor) : result Tensor :=
  if list_eq_dec Nat.eq_dec (shape var) (shape value)
  then Ok value else Raise ValueError.

(** *** Random numbers *)

(** The ambient random generator.  A seed fixes, for every random
    operation executed (numbered by [op_counter]) and every index, the
    value drawn; each operation advances the counter. *)
Record Generator : Type := mkGenerator {
  normal_tape : nat -> list nat -> R;
  uniform_tape : nat -> list nat -> R;
  op_counter : nat
}.

Definition advance (g : Generator) : Generator :=
  mkGenerator (normal_tape g) (uniform_tape g) (S (op_counter g)).

(** A shape given by Python integers; a negative dimension is refused. *)
Fixpoint shape_of (dims : list Z) : result (list nat) :=
  match dims with
  | [] => Ok []
  | d :: ds =>
      if (d <? 0)%Z then Raise ValueError
      else s <- shape_of ds ;; Ok (Z.to_nat d :: s)
  end.

(** [tf.random.normal(shape)]. *)
Definition random_normal (g : Generator) (dims : list Z)
  : result (Tensor * Generator) :=
  s <- shape_of dims ;;
  Ok (mkTensor s (normal_tape g (op_counter g)), advance g).

(** [tf.random.uniform(shape)]. *)
Definition random_uniform (g : Generator) (dims : list Z)
  : result (Tensor * Generator) :=
  s <- shape_of dims ;;
  Ok (mkTensor s (uniform_tape g (op_counter g)), advance g).

End TF.

(** ** The class TFHMM *)

Module TFHMM.

Import TF.

(** The attributes of a TFHMM object.  The four parameters are [None]
    until [fit] creates them. *)
Record t : Type := mk {
  n_components : Z;
  n_iter : Z;
  means_ : option Tensor;
  covars_ : option Tensor;
  transmat_ : option Tensor;
  startprob_ : option Tensor
}.

Definition set_means_ (self : t) (v : Tensor) : t :=
  mk (n_components self) (n_iter self) (Some v) (covars_ self)
     (transmat_ self) (startprob_ self).

Definition set_covars_ (self : t) (v : Tensor) : t :=
  mk (n_components self) (n_iter self) (means_ self) (Some v)
     (transmat_ self) (startprob_ self).

Definition set_transmat_ (self : t) (v : Tensor) : t :=
  mk (n_components self) (n_iter self) (means_ self) (covars_ self)
     (Some v) (startprob_ self).

Definition set_startprob_ (self : t) (v : Tensor) : t :=
  mk (n_components self) (n_iter self) (means_ self) (covars_ self)
     (transmat_ self) (Some v).

(** Reading an attribute in order to index it or to assign to it: [None]
    has neither subscripts nor [assign]. *)
Definition attr (a : option Tensor) : result Tensor :=
  match a with
  | Some v => Ok v
  | None => Raise TypeError
  end.

(** [def __init__(self, n_components=5, n_iter=100)]. *)
Definition __init__ (n_components n_iter : Z) : result t :=
  Ok (mk n_components n_iter None None None None).

Definition default_n_components : Z := 5.
Definition default_n_iter : Z := 100.

(** [covars_expanded = self.covars_[:, tf.newaxis, :]], the divisor of
    [_compute_log_likelihood]. *)
Definition covars_expanded (self : t) : result Tensor :=
  covars <- attr (covars_ self) ;;
  newaxis_at covars 1 2.

(** [def _compute_log_likelihood(self, X)]. *)
Definition _compute_log_likelihood (self : t) (X : Tensor) : result Tensor :=
  X_expanded <- newaxis_at X 0 2 ;;
  means <- attr (means_ self) ;;
  means_expanded <- newaxis_at means 1 2 ;;
  covars_expanded <- covars_expanded self ;;
  diff <- subtract X_expanded means_expanded ;;
  quot <- divide (square diff) covars_expanded ;;
  quad <- reduce_sum quot 2 ;;
  let log_likelihood := scale (-0.5) quad in
  norm <- reduce_sum (log (scale (2 * PI) covars_expanded)) 2 ;;
  log_likelihood <- subtract log_likelihood (scale 0.5 norm) ;;
  Ok log_likelihood.

(** [def predict(self, X)]; the result is the NumPy array of labels. *)
Definition predict (self : t) (X : Tensor) : result (list nat) :=
  let X_tf := X in
  log_likelihood <- _compute_log_likelihood self X_tf ;;
  argmax_axis0 log_likelihood.

(** The E-step of one iteration of the loop of [fit]: the responsibility
    matrix [resp]. *)
Definition e_step (self : t) (X_tf : Tensor) : result Tensor :=
  ll <- _compute_log_likelihood self X_tf ;;
  startprob <- attr (startprob_ self) ;;
  prior <- newaxis_at startprob 1 1 ;;
  log_resp <- add ll (log prior) ;;
  lse <- reduce_logsumexp log_resp 0 ;;
  lse_row <- newaxis_at lse 0 1 ;;
  log_resp <- subtract log_resp lse_row ;;
  let resp := exp log_resp in
  Ok resp.

(** The divisor of both updates of the M-step: [denom]. *)
Definition m_step_denom (resp : Tensor) : result Tensor :=
  occupancy <- reduce_sum resp 1 ;;
  newaxis_at occupancy 1 1.

(** The M-step of one iteration: the means, then the covariances. *)
Definition m_step (self : t) (X_tf resp : Tensor) : result t :=
  numer <- matmul resp X_tf ;;
  denom <- m_step_denom resp ;;
  means_var <- attr (means_ self) ;;
  new_means <- divide numer denom ;;
  means <- assign means_var new_means ;;
  let self := set_means_ self means in
  X_expanded <- newaxis_at X_tf 0 2 ;;
  means <- attr (means_ self) ;;
  means_expanded <- newaxis_at means 1 2 ;;
  centered <- subtract X_expanded means_expanded ;;
  let squared := square centered in
  resp_expanded <- newaxis_at resp 2 2 ;;
  weighted <- multiply resp_expanded squared ;;
  scatter <- reduce_sum weighted 1 ;;
  covars_var <- attr (covars_ self) ;;
  new_covars <- divide scatter denom ;;
  covars <- assign covars_var new_covars ;;
  Ok (set_covars_ self covars).

(** The body of the loop of [fit]. *)
Definition em_iteration (self : t) (X_tf : Tensor) : result t :=
  resp <- e_step self X_tf ;;
  m_step self X_tf resp.

(** [for i in range(n)]: the body, [n] times. *)
Fixpoint em_loop (n : nat) (self : t) (X_tf : Tensor) : result t :=
  match n with
  | O => Ok self
  | S m => self <- em_loop m self X_tf ;; em_iteration self X_tf
  end.

(** [n_samples, n_features = X_tf.shape]. *)
Definition unpack_shape (X_tf : Tensor) : result (nat * nat) :=
  match shape X_tf with
  | [n_samples; n_features] => Ok (n_samples, n_features)
  | _ => Raise ValueError
  end.

(** The part of [fit] before the loop: the four parameters are created
    and the transition matrix and the start probabilities normalized. *)
Definition fit_init (g : Generator) (self : t) (X_tf : Tensor)
  : result (t * Generator) :=
  '(n_samples, n_features) <- unpack_shape X_tf ;;
  let k := n_components self in
  '(means, g) <- random_normal g [k; Z.of_nat n_features] ;;
  let self := set_means_ self means in
  covars_shape <- shape_of [k; Z.of_nat n_features] ;;
  let self := set_covars_ self (ones covars_shape) in
  '(transmat, g) <- random_uniform g [k; k] ;;
  let self := set_transmat_ self transmat in
  '(startprob, g) <- random_uniform g [k] ;;
  let self := set_startprob_ self startprob in
  transmat_var <- attr (transmat_ self) ;;
  transmat_soft <- softmax transmat_var 1 ;;
  transmat <- assign transmat_var transmat_soft ;;
  let self := set_transmat_ self transmat in
  startprob_var <- attr (startprob_ self) ;;
  startprob_soft <- softmax startprob_var (rank startprob_var - 1) ;;
  startprob <- assign startprob_var startprob_soft ;;
  let self := set_startprob_ self startprob in
  Ok (self, g).

(** [def fit(self, X)]: the object with its fitted parameters ([return
    self]) and the generator after the three draws. *)
Definition fit (g : Generator) (self : t) (X : Tensor)
  : result (t * Generator) :=
  let X_tf := X in
  '(self, g) <- fit_init g self X_tf ;;
  self <- em_loop (Z.to_nat (n_iter self)) self X_tf ;;
  Ok (self, g).

End TFHMM.

(** [def apply_gpu_hmm(signal, n_states)]: the signal becomes a column of
    one-feature samples, a new object is fitted on it and labels it. *)
Definition apply_gpu_hmm (g : TF.Generator) (signal : list R) (n_states : Z)
  : result (list nat) :=
  let signal_reshaped := TF.of_rows 1 (map (fun x => [x]) signal) in
  model <- TFHMM.__init__ n_states 100 ;;
  '(model, g) <- TFHMM.fit g model signal_reshaped ;;
  let hidden_states := TFHMM.predict model signal_reshaped in
  hidden_states.

(** * The preprocessing functions of the notebook *)

(** One-dimensional NumPy arrays of floats are lists of scalars. *)
Module Preprocessing.

(** The sum of the entries of an array. *)
Definition np_sum (a : list R) : R := fold_right Rplus 0 a.

(** [np.mean(a)]: the sum divided by the number of entries. *)
Definition np_mean (a : list R) : R := np_sum a / INR (length a).

(** [np.std(a)]: the square root of the mean of the squared deviations
    from the mean (no correction of the degrees of freedom). *)
Definition np_std (a : list R) : R :=
  sqrt (np_mean (map (fun x => (x - np_mean a) ^ 2) a)).

(** [def standardize_signal(signal)]. *)
Definition standardize_signal (signal : list R) : list R :=
  map (fun x => (x - np_mean signal) / np_std signal) signal.

(** [range(start, stop, step)]: a step of 0 is a ValueError. *)
Definition py_range (start stop step : Z) : result (list Z) :=
  if (step =? 0)%Z then Raise ValueError
  else if (0 <? step)%Z then
    Ok (map (fun q => (start + Z.of_nat q * step)%Z)
            (seq 0 (Z.to_nat ((stop - start + step - 1) / step))))
  else
    Ok (map (fun q => (start + Z.of_nat q * step)%Z)
            (seq 0 (Z.to_nat ((start - stop - step - 1) / (- step))))).

(** [a[start:stop]] for indices that are not negative: the entries from
    [start] up to, not including, [stop], as far as the array reaches. *)
Definition slice (a : list R) (start stop : nat) : list R :=
  firstn (stop - start) (skipn start a).

(** [view[mask] = v] on a view and a boolean mask of its length. *)
Fixpoint mask_set (view : list R) (mask : list bool) (v : R) : list R :=
  match view, mask with
  | x :: view', b :: mask' => (if b then v else x) :: mask_set view' mask' v
  | _, _ => view
  end.

(** [a[start:stop][mask] = v]: the slice is a view, the assignment
    changes [a] itself. *)
Definition slice_mask_set (a : list R) (start stop : nat) (mask : list bool)
  (v : R) : list R :=
  firstn start a ++ mask_set (slice a start stop) mask v ++ skipn stop a.

(** The body of the loop of [interpolate_signal], for the window that
    starts at [i]. *)
Definition interpolate_window (signal : list R) (window_size : Z) (threshold : R)
  (interpolated_signal : list R) (i : Z) : list R :=
  let start := Z.to_nat i in
  let stop := Z.to_nat (i + window_size) in
  let window := slice signal start stop in
  let outliers := map (fun x => Rgtb (Rabs (x - np_mean window)) threshold) window in
  slice_mask_set interpolated_signal start stop outliers (np_mean window).

(** [def interpolate_signal(signal, window_size, threshold_factor)]. *)
Definition interpolate_signal (signal : list R) (window_size : Z)
  (threshold_factor : R) : result (list R) :=
  let interpolated_signal := signal in
  let std_dev := np_std signal in
  let threshold := threshold_factor * std_dev in
  indices <- py_range 0 (Z.of_nat (length signal)) window_size ;;
  Ok (fold_left (interpolate_window signal window_size threshold)
                indices interpolated_signal).

End Preprocessing.

(** The mean of the squared deviations from the mean, of which [np_std]
    is the square root. *)
Definition np_var (a : list R) : R :=
  Preprocessing.np_mean (map (fun x => (x - Preprocessing.np_mean a) ^ 2) a).

(** The sample at position [p] of the interpolated signal, for windows of
    [w] samples and the threshold [thr]: the mean of the window that holds
    [p] when the sample is farther than [thr] from that mean, the sample
    itself otherwise. *)
Definition interpolated_sample (signal : list R) (w : nat) (thr : R) (p : nat) : R :=
  let start := (p / w * w)%nat in
  let window := Preprocessing.slice signal start (start + w) in
  let mu := Preprocessing.np_mean window in
  if Rgtb (Rabs (nth p signal 0 - mu)) thr then mu else nth p signal 0.

(** A signal of two samples, 0 and 2: mean 1, standard deviation 1. *)
Definition signal_0_2 : list R := [0; 2].

(** A new object with two components and no iteration. *)
Definition model_without_iterations : TFHMM.t := TFHMM.mk 2 0 None None None None.

(** * The quantities of the statements *)

Import TF.
Import TFHMM.

(** [first_argmax n f l]: [l] is the first index below [n] at which [f]
    takes its largest value. *)
Definition first_argmax (n : nat) (f : nat -> R) (l : nat) : Prop :=
  (l < n)%nat /\
  (forall c, (c < n)%nat -> f c <= f l) /\
  (forall c, (c < l)%nat -> f c < f l).

(** Sample [i] of an observation matrix, as a function of the feature. *)
Definition row (X : Tensor) (i : nat) : nat -> R := fun j => get X [i; j].

(** The diagonal-covariance Gaussian log-density of the sample [x] under
    component [comp] of the means [m] and variances [c], in [d]
    dimensions. *)
Definition gaussian_log_density (m c : Tensor) (d comp : nat) (x : nat -> R) : R :=
  -0.5 * sum_upto d (fun j => (x j - get m [comp; j]) ^ 2 / get c [comp; j])
  - 0.5 * sum_upto d (fun j => ln (2 * PI * get c [comp; j])).

(** The log-density with the logarithm of the start probability of the
    component added: the entry of the E-step before normalization. *)
Definition log_joint (m c p : Tensor) (d comp : nat) (x : nat -> R) : R :=
  gaussian_log_density m c d comp x + ln (get p [comp]).

(** The responsibility of component [comp] for the sample [x], among [k]
    components: the log-sum-exp over the components, computed with the
    column maximum taken out, is subtracted and the result exponentiated. *)
Definition responsibility (m c p : Tensor) (k d comp : nat) (x : nat -> R) : R :=
  let a := fun c' => log_joint m c p d c' x in
  let my_max := max_upto k a in
  Rtrigo_def.exp
    (a comp - (ln (sum_upto k (fun c' => Rtrigo_def.exp (a c' - my_max))) + my_max)).

(** The label [predict] gives to the sample [x]: the first component of
    largest log-density. *)
Definition sample_label (m c : Tensor) (k d : nat) (x : nat -> R) : nat :=
  argmax_upto k (fun comp => gaussian_log_density m c d comp x).

(** The occupancy of component [comp]: the sum of its responsibilities
    over the [n] samples. *)
Definition occupancy (resp : Tensor) (n comp : nat) : R :=
  sum_upto n (fun i => get resp [comp; i]).

(** The parameters of [self] are the tensors [m], [c] and [p], of the
    shapes [k, d], [k, d] and [k]. *)
Definition shaped (self : TFHMM.t) (k d : nat) (m c p : Tensor) : Prop :=
  means_ self = Some m /\ covars_ self = Some c /\ startprob_ self = Some p /\
  shape m = [k; d] /\ shape c = [k; d] /\ shape p = [k].

(** The parameters as [fit] leaves them before its loop: the means drawn
    by the first random operation, unit variances, and the softmax of the
    draws of the second and third random operations. *)
Definition initial_means (g : Generator) (k d : nat) : Tensor :=
  mkTensor [k; d] (normal_tape g (op_counter g)).

Definition initial_transmat (g : Generator) (k : nat) : Tensor :=
  let u := uniform_tape g (S (op_counter g)) in
  mkTensor [k; k]
    (fun idx => Rtrigo_def.exp (u idx)
                / sum_upto k (fun j => Rtrigo_def.exp (u (replace_at 1 j idx)))).

Definition initial_startprob (g : Generator) (k : nat) : Tensor :=
  let u := uniform_tape g (S (S (op_counter g))) in
  mkTensor [k]
    (fun idx => Rtrigo_def.exp (u idx)
                / sum_upto k (fun j => Rtrigo_def.exp (u (replace_at 0 j idx)))).

Definition initial_state (g : Generator) (self : TFHMM.t) (d : nat) : TFHMM.t :=
  let k := Z.to_nat (n_components self) in
  mk (n_components self) (n_iter self)
     (Some (initial_means g k d)) (Some (ones [k; d]))
     (Some (initial_transmat g k)) (Some (initial_startprob g k)).

(** ** Concrete objects *)

(** Two components in one dimension, means 0 and 1, unit variances, start
    probabilities 1/10 and 9/10; no transition matrix. *)
Definition two_components : TFHMM.t :=
  mk 2 1 (Some (of_rows 1 [[0]; [1]])) (Some (of_rows 1 [[1]; [1]]))
     None (Some (of_list [1 / 10; 9 / 10])).

(** The same means and variances with other start probabilities, a
    transition matrix and other settings. *)
Definition two_components_other_prior : TFHMM.t :=
  mk 7 3 (Some (of_rows 1 [[0]; [1]])) (Some (of_rows 1 [[1]; [1]]))
     (Some (of_rows 2 [[1 / 2; 1 / 2]; [1 / 4; 3 / 4]]))
     (Some (of_list [3 / 4; 1 / 4])).

(** One sample, 2/5. *)
Definition one_sample : Tensor := of_rows 1 [[2 / 5]].

(** One component in two dimensions, and two samples of one feature. *)
Definition wide_model : TFHMM.t :=
  mk 1 1 (Some (of_rows 2 [[0; 0]])) (Some (of_rows 2 [[1; 1]])) None None.

Definition narrow_samples : Tensor := of_rows 1 [[1]; [2]].

(** One sample of three features. *)
Definition three_features : Tensor := of_rows 3 [[1; 2; 3]].

(** An object asked for a negative number of components. *)
Definition negative_components : TFHMM.t := mk (-1) 1 None None None None.

(** A new object with one component and one iteration. *)
Definition new_model : TFHMM.t := mk 1 1 None None None None.

(** A new object with two components and three iterations. *)
Definition new_model_two_components : TFHMM.t := mk 2 3 None None None None.

(** A generator whose normal draws are all 5 and uniform draws all 0. *)
Definition generator_5 : Generator :=
  mkGenerator (fun _ _ => 5) (fun _ _ => 0) O.

(** One sample, 3. *)
Definition single_sample : Tensor := of_rows 1 [[3]].

(** Two samples, 0 and 10. *)
Definition two_samples : Tensor := of_rows 1 [[0]; [10]].


(** [prod_upto n f] is [f 0 * ... * f (n-1)]. *)
Fixpoint prod_upto (n : nat) (f : nat -> R) : R :=
  match n with
  | O => 1
  | S m => prod_upto m f * f m
  end.

(** The diagonal-covariance Gaussian density of the sample [x] under
    component [comp]: the product over the features of
    [exp (- (x_j - mean_j)^2 / (2 var_j)) / sqrt (2 pi var_j)]. *)
Definition gaussian_density (m c : Tensor) (d comp : nat) (x : nat -> R) : R :=
  prod_upto d
    (fun j => Rtrigo_def.exp (- (x j - get m [comp; j]) ^ 2 / (2 * get c [comp; j]))
              / sqrt (2 * PI * get c [comp; j])).


(** Two components in one dimension with means -1 and 1, unit variances
    and equal start probabilities, two samples far from both, 100 and
    101, and the responsibilities float32 arithmetic gives them: those of
    the farther component 0 are exactly 0. *)
Definition far_components : TFHMM.t :=
  mk 2 1 (Some (of_rows 1 [[-1]; [1]])) (Some (of_rows 1 [[1]; [1]]))
     None (Some (of_list [1 / 2; 1 / 2])).

Definition far_samples : Tensor := of_rows 1 [[100]; [101]].

Definition underflowed_resp : Tensor := of_rows 2 [[0; 0]; [1; 1]].

(** Responsibilities of 1/2 for each of two components and two samples. *)
Definition even_resp : Tensor := of_rows 2 [[1 / 2; 1 / 2]; [1 / 2; 1 / 2]].

(** * Properties *)

(** ** Sums, maxima and the first maximum *)

Lemma sum_upto_ext (n : nat) (f g : nat -> R) :
  (forall j, (j < n)%nat -> f j = g j) -> sum_upto n f = sum_upto n g.
Proof.
  induction n as [|n IH]; simpl; intros H; [reflexivity|].
  rewrite IH, H; auto.
Qed.

Lemma max_upto_ext (n : nat) (f g : nat -> R) :
  (forall j, (j < n)%nat -> f j = g j) -> max_upto n f = max_upto n g.
Proof.
  induction n as [|n IH]; intros H; [reflexivity|].
  destruct n as [|n]; [apply H; lia|].
  change (Rmax (max_upto (S n) f) (f (S n)) = Rmax (max_upto (S n) g) (g (S n))).
  rewrite IH, H; auto.
Qed.

Lemma sum_upto_scal_r (n : nat) (f : nat -> R) (a : R) :
  sum_upto n (fun j => f j * a) = sum_upto n f * a.
Proof. induction n as [|n IH]; simpl; [ring | rewrite IH; ring]. Qed.

Lemma sum_upto_pos (n : nat) (f : nat -> R) :
  (1 <= n)%nat -> (forall j, (j < n)%nat -> 0 < f j) -> 0 < sum_upto n f.
Proof.
  induction n as [|n IH]; intros Hn Hf; [lia|].
  simpl. destruct n as [|n].
  - simpl. specialize (Hf O ltac:(lia)). lra.
  - assert (0 < sum_upto (S n) f) by (apply IH; [lia | intros; apply Hf; lia]).
    specialize (Hf (S n) ltac:(lia)). lra.
Qed.

Lemma sum_upto_nonneg (n : nat) (f : nat -> R) :
  (forall j, (j < n)%nat -> 0 <= f j) -> 0 <= sum_upto n f.
Proof.
  induction n as [|n IH]; intros Hf; simpl; [lra|].
  assert (0 <= sum_upto n f) by (apply IH; intros; apply Hf; lia).
  specialize (Hf n ltac:(lia)). lra.
Qed.

Lemma sum_upto_term_le (n : nat) (f : nat -> R) (c : nat) :
  (forall j, (j < n)%nat -> 0 <= f j) -> (c < n)%nat -> f c <= sum_upto n f.
Proof.
  induction n as [|n IH]; intros Hf Hc; [lia|]. simpl.
  assert (0 <= sum_upto n f) by (apply sum_upto_nonneg; intros; apply Hf; lia).
  destruct (Nat.eq_dec c n) as [->|Hne].
  - lra.
  - assert (f c <= sum_upto n f) by (apply IH; [intros; apply Hf|]; lia).
    specialize (Hf n ltac:(lia)). lra.
Qed.

Lemma Rgtb_true (x y : R) : Rgtb x y = true <-> x > y.
Proof. unfold Rgtb. destruct (Rgt_dec x y); split; intros; auto; discriminate. Qed.

Lemma Rgtb_false (x y : R) : Rgtb x y = false <-> x <= y.
Proof.
  unfold Rgtb. destruct (Rgt_dec x y); split; intros; auto; try discriminate; lra.
Qed.

Lemma argmax_upto_first (n : nat) (f : nat -> R) :
  (1 <= n)%nat -> first_argmax n f (argmax_upto n f).
Proof.
  induction n as [|n IH]; intros Hn; [lia|].
  destruct n as [|n].
  - simpl. unfold Rgtb. destruct (Rgt_dec (f O) (f O)) as [H|H]; [lra|].
    repeat split; intros; try lia. replace c with O by lia. lra.
  - destruct (IH ltac:(lia)) as (Hl & Hmax & Hfirst).
    change (argmax_upto (S (S n)) f)
      with (if Rgtb (f (S n)) (f (argmax_upto (S n) f)) then S n
            else argmax_upto (S n) f).
    destruct (Rgtb (f (S n)) (f (argmax_upto (S n) f))) eqn:E.
    + apply Rgtb_true in E. repeat split; [lia| |].
      * intros c Hc. destruct (Nat.eq_dec c (S n)) as [->|]; [lra|].
        specialize (Hmax c ltac:(lia)). lra.
      * intros c Hc. specialize (Hmax c Hc). lra.
    + apply Rgtb_false in E. repeat split; [lia| |assumption].
      intros c Hc. destruct (Nat.eq_dec c (S n)) as [->|]; [lra|].
      apply Hmax; lia.
Qed.

Lemma first_argmax_unique (n : nat) (f : nat -> R) (l l' : nat) :
  first_argmax n f l -> first_argmax n f l' -> l = l'.
Proof.
  intros (Hl & Hmax & Hfirst) (Hl' & Hmax' & Hfirst').
  destruct (Nat.lt_trichotomy l l') as [H|[H|H]]; [|assumption|].
  - specialize (Hfirst' l H). specialize (Hmax l' Hl'). lra.
  - specialize (Hfirst l' H). specialize (Hmax' l Hl). lra.
Qed.

Lemma first_argmax_ext (n : nat) (f g : nat -> R) (l : nat) :
  (forall c, (c < n)%nat -> f c = g c) -> first_argmax n f l -> first_argmax n g l.
Proof.
  intros E (Hl & Hmax & Hfirst). repeat split; [assumption| |].
  - intros c Hc. rewrite <- !E by lia. auto.
  - intros c Hc. rewrite <- !E by lia. auto.
Qed.

Lemma argmax_upto_ext (n : nat) (f g : nat -> R) :
  (forall c, (c < n)%nat -> f c = g c) -> argmax_upto n f = argmax_upto n g.
Proof.
  intros E. destruct n as [|n]; [reflexivity|].
  apply (first_argmax_unique (S n) g).
  - apply (first_argmax_ext (S n) f); [assumption|]. apply argmax_upto_first; lia.
  - apply argmax_upto_first; lia.
Qed.

(** ** Log-sum-exp normalization *)

Section LogSumExp.

Variable k : nat.
Variable a : nat -> R.
Variable shift : R.
Hypothesis k_pos : (1 <= k)%nat.

Lemma lse_total_pos : 0 < sum_upto k (fun c => Rtrigo_def.exp (a c - shift)).
Proof. apply sum_upto_pos; [assumption | intros; apply exp_pos]. Qed.

Lemma exp_minus_lse (c : nat) :
  Rtrigo_def.exp
    (a c - (ln (sum_upto k (fun c' => Rtrigo_def.exp (a c' - shift))) + shift))
  = Rtrigo_def.exp (a c - shift)
    / sum_upto k (fun c' => Rtrigo_def.exp (a c' - shift)).
Proof.
  set (total := sum_upto k (fun c' => Rtrigo_def.exp (a c' - shift))).
  replace (a c - (ln total + shift)) with ((a c - shift) - ln total) by ring.
  unfold Rminus at 1. rewrite exp_plus, exp_Ropp, exp_ln by apply lse_total_pos.
  reflexivity.
Qed.



End LogSumExp.

(** ** Shapes that broadcast *)

Lemma broadcast_dim_refl (a : nat) : broadcast_dim a a = Ok a.
Proof. unfold broadcast_dim. now rewrite Nat.eqb_refl. Qed.

Lemma broadcast_dim_1_l (a : nat) : broadcast_dim 1 a = Ok a.
Proof. unfold broadcast_dim. destruct (Nat.eqb_spec 1 a); subst; auto. Qed.

Lemma broadcast_dim_1_r (a : nat) : broadcast_dim a 1 = Ok a.
Proof. unfold broadcast_dim. destruct (Nat.eqb_spec a 1); subst; auto. Qed.

Lemma broadcast_dim_mismatch (a b : nat) :
  a <> b -> a <> 1%nat -> b <> 1%nat -> broadcast_dim a b = Raise InvalidArgumentError.
Proof.
  intros Hab Ha Hb. unfold broadcast_dim.
  destruct (Nat.eqb_spec a b); [contradiction|].
  destruct (Nat.eqb_spec a 1); [contradiction|].
  destruct (Nat.eqb_spec b 1); [contradiction|reflexivity].
Qed.

(** Within the range of an axis the broadcast index is the index. *)
Lemma clamp_lt (d j : nat) : (j < d)%nat -> (if Nat.eqb d 1 then O else j) = j.
Proof. destruct (Nat.eqb_spec d 1); intros; subst; lia. Qed.

(** Unfolds the tensor operations on tensors whose shapes are lists of
    known length and settles the broadcasts of equal dimensions and of
    dimensions of size 1. *)
Ltac tf_norm :=
  repeat (unfold subtract, divide, add, multiply, binop, unop, scale, square,
            log, exp, reduce_sum, reduce, newaxis_at, check_axis,
            reduce_logsumexp, rank, expand_dims, broadcast_shapes, bidx,
            matmul, assign, TFHMM.set_means_, TFHMM.set_covars_,
            TFHMM.set_transmat_, TFHMM.set_startprob_;
          cbn [bind TFHMM.attr shape get length Nat.ltb Nat.leb
               TFHMM.means_ TFHMM.covars_ TFHMM.transmat_ TFHMM.startprob_
               TFHMM.n_components TFHMM.n_iter
               insert_at remove_at replace_at
               broadcast_rev rev app nth clamp_rev];
          rewrite ?broadcast_dim_refl, ?broadcast_dim_1_l, ?broadcast_dim_1_r,
                  ?Nat.eqb_refl).

(** Removes the broadcast indices of the axes listed by hypotheses
    [_ < _] of the context. *)
Ltac tf_clamp :=
  repeat match goal with
         | H : (?j < ?d)%nat |- _ => rewrite (clamp_lt d j H)
         end.

Lemma gaussian_log_density_ext (m c : Tensor) (d comp : nat) (x y : nat -> R) :
  (forall j, (j < d)%nat -> x j = y j) ->
  gaussian_log_density m c d comp x = gaussian_log_density m c d comp y.
Proof.
  intros E. unfold gaussian_log_density. f_equal. f_equal.
  apply sum_upto_ext. intros j Hj. now rewrite E.
Qed.

(** *** _compute_log_likelihood *)

Lemma compute_log_likelihood_entries (self : TFHMM.t) (X m c : Tensor) (k d n : nat) :
  means_ self = Some m -> covars_ self = Some c ->
  shape m = [k; d] -> shape c = [k; d] -> shape X = [n; d] ->
  exists L, _compute_log_likelihood self X = Ok L /\ shape L = [k; n] /\
    forall comp i, (comp < k)%nat -> (i < n)%nat ->
      get L [comp; i] = gaussian_log_density m c d comp (row X i).
Proof.
  destruct X as [sX fX], m as [sm fm], c as [sc fc]. simpl.
  intros Hm Hc -> -> ->.
  unfold _compute_log_likelihood, covars_expanded. rewrite Hm, Hc. tf_norm.
  eexists. split; [reflexivity|]. split; [reflexivity|].
  intros comp i Hcomp Hi. unfold gaussian_log_density, row. tf_norm. tf_clamp.
  f_equal; f_equal.
  apply sum_upto_ext. intros j Hj. tf_clamp. unfold Rdiv. ring.
Qed.

(** *** The E-step *)

Lemma e_step_entries (self : TFHMM.t) (X m c p : Tensor) (k d n : nat) :
  shaped self k d m c p -> shape X = [n; d] ->
  exists resp, e_step self X = Ok resp /\ shape resp = [k; n] /\
    forall comp i, (comp < k)%nat -> (i < n)%nat ->
      get resp [comp; i] = responsibility m c p k d comp (row X i).
Proof.
  intros (Hm & Hc & Hp & Hsm & Hsc & Hsp) HX.
  destruct (compute_log_likelihood_entries self X m c k d n Hm Hc Hsm Hsc HX)
    as (L & HL & HsL & HeL).
  destruct L as [sL fL], p as [sp fp]. simpl in HsL, Hsp, HeL. subst sL sp.
  unfold e_step. rewrite HL, Hp. tf_norm.
  eexists. split; [reflexivity|]. split; [reflexivity|].
  intros comp i Hcomp Hi. unfold responsibility, log_joint. tf_norm. tf_clamp.
  rewrite (HeL comp i Hcomp Hi).
  assert (Hmax : max_upto k (fun j => fL [if Nat.eqb k 1 then O else j; i]
                                      + ln (fp [if Nat.eqb k 1 then O else j]))
                 = max_upto k (fun c' => gaussian_log_density m c d c' (row X i)
                                         + ln (fp [c']))).
  { apply max_upto_ext. intros c' Hc'. tf_clamp. now rewrite HeL. }
  cbn [get]. rewrite Hmax. do 4 f_equal.
  apply sum_upto_ext. intros c' Hc'. tf_clamp. now rewrite HeL.
Qed.

(** *** The M-step *)

Lemma m_step_denom_entries (resp : Tensor) (k n : nat) :
  shape resp = [k; n] ->
  exists denom, m_step_denom resp = Ok denom /\ shape denom = [k; 1%nat] /\
    forall comp, get denom [comp; O] = occupancy resp n comp.
Proof.
  destruct resp as [sr fr]. simpl. intros ->.
  unfold m_step_denom. tf_norm.
  eexists. split; [reflexivity|]. split; [reflexivity|].
  intros comp. reflexivity.
Qed.

Lemma m_step_entries (self : TFHMM.t) (X resp m c p : Tensor) (k d n : nat) :
  shaped self k d m c p -> shape X = [n; d] -> shape resp = [k; n] ->
  exists self' m' c',
    m_step self X resp = Ok self' /\ shaped self' k d m' c' p /\
    n_components self' = n_components self /\ n_iter self' = n_iter self /\
    transmat_ self' = transmat_ self /\
    forall comp j, (comp < k)%nat -> (j < d)%nat ->
      get m' [comp; j] =
        sum_upto n (fun i => get resp [comp; i] * get X [i; j])
        / occupancy resp n comp /\
      get c' [comp; j] =
        sum_upto n (fun i => get resp [comp; i] * (get X [i; j] - get m' [comp; j]) ^ 2)
        / occupancy resp n comp.
Proof.
  intros (Hm & Hc & Hp & Hsm & Hsc & Hsp) HX Hr.
  destruct (m_step_denom_entries resp k n Hr) as (denom & Hd & Hsd & Hed).
  destruct X as [sX fX], resp as [sr fr], m as [sm fm], c as [sc fc],
           denom as [sd fd].
  simpl in HX, Hr, Hsm, Hsc, Hsd, Hed. subst sX sr sm sc sd.
  unfold m_step. rewrite Hd. tf_norm. rewrite Hm. tf_norm.
  destruct (list_eq_dec Nat.eq_dec [k; d] [k; d]) as [_|N]; [|contradiction].
  tf_norm. rewrite Hc. tf_norm.
  destruct (list_eq_dec Nat.eq_dec [k; d] [k; d]) as [_|N]; [|contradiction].
  cbn [bind].
  eexists. eexists. eexists. split; [reflexivity|].
  split; [|split; [reflexivity|split; [reflexivity|split; [reflexivity|]]]].
  - unfold shaped. cbn. repeat split; try reflexivity; assumption.
  - intros comp j Hcomp Hj. tf_norm. tf_clamp.
    rewrite !Hed. split; [reflexivity|].
    f_equal. apply sum_upto_ext. intros i Hi. tf_clamp. ring.
Qed.

(** *** One iteration and the loop *)

Lemma em_iteration_shaped (self : TFHMM.t) (X m c p : Tensor) (k d n : nat) :
  shaped self k d m c p -> shape X = [n; d] ->
  exists self' m' c',
    em_iteration self X = Ok self' /\ shaped self' k d m' c' p /\
    n_components self' = n_components self /\ n_iter self' = n_iter self /\
    transmat_ self' = transmat_ self.
Proof.
  intros Hs HX.
  destruct (e_step_entries self X m c p k d n Hs HX) as (resp & He & Hsr & _).
  destruct (m_step_entries self X resp m c p k d n Hs HX Hsr)
    as (self' & m' & c' & Hm & Hs' & Hk & Hit & Htr & _).
  exists self', m', c'. unfold em_iteration. rewrite He. cbn [bind].
  repeat (split; [assumption|]); assumption.
Qed.

Lemma em_loop_shaped (iters : nat) (self : TFHMM.t) (X m c p : Tensor) (k d n : nat) :
  shaped self k d m c p -> shape X = [n; d] ->
  exists self' m' c',
    em_loop iters self X = Ok self' /\ shaped self' k d m' c' p /\
    n_components self' = n_components self /\ n_iter self' = n_iter self /\
    transmat_ self' = transmat_ self.
Proof.
  intros Hs HX. induction iters as [|iters IH].
  - exists self, m, c. simpl. repeat (split; [auto; fail|]); auto.
  - destruct IH as (s1 & m1 & c1 & H1 & Hs1 & Hk1 & Hit1 & Htr1).
    destruct (em_iteration_shaped s1 X m1 c1 p k d n Hs1 HX)
      as (s2 & m2 & c2 & H2 & Hs2 & Hk2 & Hit2 & Htr2).
    exists s2, m2, c2. simpl. rewrite H1. cbn [bind].
    repeat (split; [assumption || congruence|]); congruence.
Qed.

(** *** Initialization and fit *)

Lemma assign_same_shape (var value : Tensor) :
  shape var = shape value -> assign var value = Ok value.
Proof.
  intros E. unfold assign.
  destruct (list_eq_dec Nat.eq_dec (shape var) (shape value)); [reflexivity|contradiction].
Qed.

Lemma fit_init_eq (g : Generator) (self : TFHMM.t) (X : Tensor) (n d : nat) :
  shape X = [n; d] -> (0 <= n_components self)%Z ->
  fit_init g self X = Ok (initial_state g self d, advance (advance (advance g))).
Proof.
  intros HX Hk. unfold fit_init, unpack_shape. rewrite HX. cbn [bind].
  unfold random_normal, random_uniform, shape_of.
  assert (E1 : (n_components self <? 0)%Z = false) by (apply Z.ltb_ge; assumption).
  assert (E2 : (Z.of_nat d <? 0)%Z = false) by (apply Z.ltb_ge; lia).
  rewrite E1, E2. cbn [bind]. rewrite Nat2Z.id.
  unfold set_means_, set_covars_, set_transmat_, set_startprob_.
  cbn [means_ covars_ transmat_ startprob_ n_components n_iter attr bind
       advance op_counter uniform_tape normal_tape].
  unfold softmax, check_axis, rank.
  cbn [shape length Nat.ltb Nat.leb Nat.sub bind nth get].
  rewrite !assign_same_shape by reflexivity. cbn [bind].
  reflexivity.
Qed.

Lemma initial_state_shaped (g : Generator) (self : TFHMM.t) (d : nat) :
  let k := Z.to_nat (n_components self) in
  shaped (initial_state g self d) k d
         (initial_means g k d) (ones [k; d]) (initial_startprob g k).
Proof. unfold shaped, initial_state. cbn. repeat split; reflexivity. Qed.

(** [fit] on a two-dimensional array and a non-negative number of
    components returns; its result is the state the loop produces from
    the initial state. *)
Lemma fit_returns (g : Generator) (self : TFHMM.t) (X : Tensor) (n d : nat) :
  shape X = [n; d] -> (0 <= n_components self)%Z ->
  exists self' m' c',
    fit g self X = Ok (self', advance (advance (advance g))) /\
    em_loop (Z.to_nat (n_iter self)) (initial_state g self d) X = Ok self' /\
    shaped self' (Z.to_nat (n_components self)) d m' c'
           (initial_startprob g (Z.to_nat (n_components self))) /\
    n_components self' = n_components self /\ n_iter self' = n_iter self /\
    transmat_ self' = Some (initial_transmat g (Z.to_nat (n_components self))).
Proof.
  intros HX Hk.
  destruct (em_loop_shaped (Z.to_nat (n_iter self)) (initial_state g self d) X
              _ _ _ _ d n (initial_state_shaped g self d) HX)
    as (s & m' & c' & Hl & Hs & Hk' & Hit & Htr).
  exists s, m', c'. unfold fit. rewrite (fit_init_eq g self X n d HX Hk).
  cbn [bind]. change (n_iter (initial_state g self d)) with (n_iter self).
  rewrite Hl. cbn [bind].
  repeat (split; [assumption || reflexivity|]). assumption.
Qed.

(** *** predict *)

Lemma argmax_axis0_labels (L : Tensor) (k n : nat) :
  shape L = [k; n] -> (1 <= k)%nat ->
  argmax_axis0 L
  = Ok (map (fun i => argmax_upto k (fun comp => get L [comp; i])) (seq 0 n)).
Proof.
  intros HL Hk. unfold argmax_axis0. rewrite HL.
  destruct (Nat.eqb_spec k 0); [lia | reflexivity].
Qed.

Lemma sample_label_ext (m c : Tensor) (k d : nat) (x y : nat -> R) :
  (forall j, (j < d)%nat -> x j = y j) ->
  sample_label m c k d x = sample_label m c k d y.
Proof.
  intros E. unfold sample_label. apply argmax_upto_ext.
  intros comp _. now apply gaussian_log_density_ext.
Qed.

Lemma predict_labels (self : TFHMM.t) (X m c : Tensor) (k d n : nat) :
  means_ self = Some m -> covars_ self = Some c ->
  shape m = [k; d] -> shape c = [k; d] -> shape X = [n; d] -> (1 <= k)%nat ->
  predict self X
  = Ok (map (fun i => sample_label m c k d (row X i)) (seq 0 n)).
Proof.
  intros Hm Hc Hsm Hsc HX Hk.
  destruct (compute_log_likelihood_entries self X m c k d n Hm Hc Hsm Hsc HX)
    as (L & HL & HsL & HeL).
  unfold predict. rewrite HL. cbn [bind].
  rewrite (argmax_axis0_labels L k n HsL Hk). f_equal.
  apply map_ext_in. intros i Hi. apply in_seq in Hi.
  unfold sample_label. apply argmax_upto_ext.
  intros comp Hcomp. apply HeL; lia.
Qed.

Lemma nth_map_seq (f : nat -> nat) (n i : nat) :
  (i < n)%nat -> nth i (map f (seq 0 n)) O = f i.
Proof.
  intros Hi. rewrite (nth_indep _ O (f O)) by (rewrite length_map, length_seq; lia).
  rewrite (map_nth f (seq 0 n) O i). now rewrite seq_nth.
Qed.

(** C3.  For a state whose means and variances have shape [k, d] and an
    observation set of [n] samples of dimension [d], the log-likelihood
    evaluation returns a [k] by [n] matrix, and its entry at component
    [comp] and sample [i] is
    [-0.5 * sum_j (x_i[j] - mean[comp][j])^2 / var[comp][j]
     - 0.5 * sum_j log (2 pi var[comp][j])]. *)
Theorem log_likelihood_matrix_is_gaussian_log_density
  (self : TFHMM.t) (X m c : Tensor) (k d n : nat) :
  means_ self = Some m -> covars_ self = Some c ->
  shape m = [k; d] -> shape c = [k; d] -> shape X = [n; d] ->
  exists L, _compute_log_likelihood self X = Ok L /\ shape L = [k; n] /\
    forall comp i, (comp < k)%nat -> (i < n)%nat ->
      get L [comp; i]
      = -0.5 * sum_upto d (fun j => (get X [i; j] - get m [comp; j]) ^ 2
                                    / get c [comp; j])
        - 0.5 * sum_upto d (fun j => ln (2 * PI * get c [comp; j])).
Proof.
  intros Hm Hc Hsm Hsc HX.
  destruct (compute_log_likelihood_entries self X m c k d n Hm Hc Hsm Hsc HX)
    as (L & HL & HsL & HeL).
  exists L. split; [assumption|]. split; [assumption|].
  intros comp i Hcomp Hi. rewrite (HeL comp i Hcomp Hi). reflexivity.
Qed.

(** C1.  For a state with [k >= 1] components and [n] samples, [predict]
    returns [n] labels; the label of sample [i] is the first component at
    which the Gaussian log-density of sample [i] is largest; and that label
    is the same for any other object with the same means and variances
    (whatever its start probabilities and transition matrix) and any other
    observation set that contains the sample, at any position. *)
Theorem predict_labels_each_sample_alone
  (self : TFHMM.t) (X m c : Tensor) (k d n : nat) :
  means_ self = Some m -> covars_ self = Some c ->
  shape m = [k; d] -> shape c = [k; d] -> shape X = [n; d] -> (1 <= k)%nat ->
  exists labels,
    predict self X = Ok labels /\ length labels = n /\
    (forall i, (i < n)%nat ->
       first_argmax k (fun comp => gaussian_log_density m c d comp (row X i))
                    (nth i labels O)) /\
    (forall self' X' n' labels' i i',
       means_ self' = Some m -> covars_ self' = Some c ->
       shape X' = [n'; d] -> predict self' X' = Ok labels' ->
       (i < n)%nat -> (i' < n')%nat ->
       (forall j, (j < d)%nat -> get X' [i'; j] = get X [i; j]) ->
       nth i' labels' O = nth i labels O).
Proof.
  intros Hm Hc Hsm Hsc HX Hk.
  exists (map (fun i => sample_label m c k d (row X i)) (seq 0 n)).
  split; [now apply predict_labels|].
  split; [now rewrite length_map, length_seq|].
  split.
  - intros i Hi. rewrite nth_map_seq by assumption.
    apply argmax_upto_first. assumption.
  - intros self' X' n' labels' i i' Hm' Hc' HX' Hp Hi Hi' Hrow.
    rewrite (predict_labels self' X' m c k d n' Hm' Hc' Hsm Hsc HX' Hk) in Hp.
    injection Hp as <-. rewrite !nth_map_seq by assumption.
    apply sample_label_ext. intros j Hj. unfold row. now apply Hrow.
Qed.

(** *** predict and the start probabilities *)

Lemma two_components_shaped :
  shaped two_components 2 1 (of_rows 1 [[0]; [1]]) (of_rows 1 [[1]; [1]])
         (of_list [1 / 10; 9 / 10]).
Proof. unfold shaped, two_components. cbn. repeat split; reflexivity. Qed.

Lemma ln_9_lower : 1 / 10 < ln 9.
Proof.
  rewrite <- (ln_exp (1 / 10)). apply ln_increasing; [apply exp_pos|].
  apply Rlt_le_trans with (Rtrigo_def.exp 1); [apply exp_increasing; lra|].
  pose proof exp_le_3. lra.
Qed.

Lemma ln_tenths : ln (9 / 10) - ln (1 / 10) = ln 9.
Proof.
  replace (9 / 10) with (9 * (1 / 10)) by field.
  rewrite ln_mult by lra. ring.
Qed.

(** On [one_sample] the log-density is larger under component 0, the
    log-density plus log start probability under component 1. *)
Lemma two_components_density_order :
  gaussian_log_density (of_rows 1 [[0]; [1]]) (of_rows 1 [[1]; [1]]) 1 1 (row one_sample 0)
  < gaussian_log_density (of_rows 1 [[0]; [1]]) (of_rows 1 [[1]; [1]]) 1 0 (row one_sample 0).
Proof. unfold gaussian_log_density, row. cbn. lra. Qed.

Lemma two_components_joint_order :
  log_joint (of_rows 1 [[0]; [1]]) (of_rows 1 [[1]; [1]]) (of_list [1 / 10; 9 / 10])
            1 0 (row one_sample 0)
  < log_joint (of_rows 1 [[0]; [1]]) (of_rows 1 [[1]; [1]]) (of_list [1 / 10; 9 / 10])
              1 1 (row one_sample 0).
Proof.
  unfold log_joint, gaussian_log_density, row. cbn.
  pose proof ln_9_lower. pose proof ln_tenths. lra.
Qed.

Lemma argmax_upto_two (f : nat -> R) :
  argmax_upto 2 f = if Rgtb (f 1%nat) (f O) then 1%nat else O.
Proof.
  cbn. destruct (Rgtb (f O) (f O)); reflexivity.
Qed.

Lemma predict_two_components : predict two_components one_sample = Ok [O].
Proof.
  rewrite (predict_labels two_components one_sample
             (of_rows 1 [[0]; [1]]) (of_rows 1 [[1]; [1]]) 2 1 1)
    by (reflexivity || lia).
  cbn [seq map]. unfold sample_label. rewrite argmax_upto_two.
  pose proof two_components_density_order as H.
  destruct (Rgtb _ _) eqn:E; [|reflexivity].
  apply Rgtb_true in E. lra.
Qed.

Lemma responsibilities_two_components :
  exists resp, e_step two_components one_sample = Ok resp /\
               argmax_axis0 resp = Ok [1%nat].
Proof.
  destruct (e_step_entries two_components one_sample _ _ _ 2 1 1
              two_components_shaped eq_refl) as (resp & He & Hs & Hv).
  exists resp. split; [assumption|].
  rewrite (argmax_axis0_labels resp 2 1 Hs) by lia.
  cbn [seq map]. rewrite argmax_upto_two.
  rewrite (Hv 1%nat O), (Hv O O) by lia.
  destruct (Rgtb _ _) eqn:E; [reflexivity|].
  apply Rgtb_false in E. unfold responsibility in E.
  apply Rle_not_lt in E. exfalso. apply E.
  apply exp_increasing. pose proof two_components_joint_order. lra.
Qed.

(** C10.  [predict] reads the means and variances only: two objects with
    the same means and variances give the same result on every input,
    whatever their start probabilities, transition matrices and settings.
    In particular the labels are not the argmax of the responsibilities of
    the E-step, which add the log start probability: on [two_components]
    and [one_sample] the label is 0 and the largest responsibility is that
    of component 1. *)
Theorem predict_reads_means_and_variances_only :
  (forall (self1 self2 : TFHMM.t) (X : Tensor),
     means_ self1 = means_ self2 -> covars_ self1 = covars_ self2 ->
     predict self1 X = predict self2 X) /\
  (exists self X resp,
     predict self X = Ok [O] /\ e_step self X = Ok resp /\
     argmax_axis0 resp = Ok [1%nat]).
Proof.
  split.
  - intros self1 self2 X Hm Hc.
    unfold predict, _compute_log_likelihood, covars_expanded.
    rewrite Hm, Hc. reflexivity.
  - destruct responsibilities_two_components as (resp & He & Ha).
    exists two_components, one_sample, resp.
    split; [apply predict_two_components|]. split; assumption.
Qed.

Lemma predict_reads_means_and_variances_only_witness :
  (means_ two_components = means_ two_components_other_prior /\
   covars_ two_components = covars_ two_components_other_prior) /\
  predict two_components one_sample = predict two_components_other_prior one_sample.
Proof.
  split; [split; reflexivity|].
  apply (proj1 predict_reads_means_and_variances_only); reflexivity.
Defined.

(** *** What the loop leaves alone *)

(** Splits a successful sequence of operations into its steps. *)
Ltac bind_inv H :=
  repeat match type of H with
         | bind ?x _ = Ok _ =>
             let E := fresh "E" in
             destruct x eqn:E; cbn [bind] in H; [|discriminate H]
         end.

Lemma m_step_frame (self self' : TFHMM.t) (X resp : Tensor) :
  m_step self X resp = Ok self' ->
  n_components self' = n_components self /\ n_iter self' = n_iter self /\
  transmat_ self' = transmat_ self /\ startprob_ self' = startprob_ self.
Proof.
  intros H. unfold m_step in H. bind_inv H.
  injection H as <-. repeat split; reflexivity.
Qed.

Lemma em_iteration_frame (self self' : TFHMM.t) (X : Tensor) :
  em_iteration self X = Ok self' ->
  n_components self' = n_components self /\ n_iter self' = n_iter self /\
  transmat_ self' = transmat_ self /\ startprob_ self' = startprob_ self.
Proof.
  intros H. unfold em_iteration in H. bind_inv H.
  now apply m_step_frame in H.
Qed.

Lemma em_loop_frame (iters : nat) (self self' : TFHMM.t) (X : Tensor) :
  em_loop iters self X = Ok self' ->
  n_components self' = n_components self /\ n_iter self' = n_iter self /\
  transmat_ self' = transmat_ self /\ startprob_ self' = startprob_ self.
Proof.
  revert self'. induction iters as [|iters IH]; intros self' H.
  - injection H as <-. repeat split; reflexivity.
  - cbn [em_loop] in H. bind_inv H.
    destruct (IH _ eq_refl) as (A1 & A2 & A3 & A4).
    destruct (em_iteration_frame _ _ _ H) as (B1 & B2 & B3 & B4).
    repeat split; congruence.
Qed.

(** The start probabilities are a softmax: positive, and of sum 1 when
    there is a component. *)
Lemma initial_startprob_entry (g : Generator) (k comp : nat) :
  get (initial_startprob g k) [comp]
  = Rtrigo_def.exp (uniform_tape g (S (S (op_counter g))) [comp])
    / sum_upto k (fun j => Rtrigo_def.exp (uniform_tape g (S (S (op_counter g))) [j])).
Proof. reflexivity. Qed.

Lemma initial_transmat_entry (g : Generator) (k a b : nat) :
  get (initial_transmat g k) [a; b]
  = Rtrigo_def.exp (uniform_tape g (S (op_counter g)) [a; b])
    / sum_upto k (fun j => Rtrigo_def.exp (uniform_tape g (S (op_counter g)) [a; j])).
Proof. reflexivity. Qed.

(** C5.  [fit] on a two-dimensional array with a non-negative number of
    components returns, and the transition matrix and the start
    probabilities of the result are those set before the loop, the
    softmax of the two uniform draws: they depend on the generator and on
    the number of components, not on the number of iterations or on the
    observations.  No iteration of the loop, from any state, changes
    them. *)
Theorem fit_sets_startprob_and_transmat_before_the_loop
  (g : Generator) (self : TFHMM.t) (X : Tensor) (n d : nat) :
  shape X = [n; d] -> (0 <= n_components self)%Z ->
  let k := Z.to_nat (n_components self) in
  (exists s0 g' s,
     fit_init g self X = Ok (s0, g') /\ fit g self X = Ok (s, g') /\
     transmat_ s = transmat_ s0 /\ startprob_ s = startprob_ s0 /\
     transmat_ s = Some (initial_transmat g k) /\
     startprob_ s = Some (initial_startprob g k)) /\
  (forall s s', em_iteration s X = Ok s' ->
     transmat_ s' = transmat_ s /\ startprob_ s' = startprob_ s).
Proof.
  intros HX Hk k. split.
  - destruct (fit_returns g self X n d HX Hk)
      as (s & m' & c' & Hfit & Hloop & Hs & _ & _ & Htr).
    exists (initial_state g self d), (advance (advance (advance g))), s.
    split; [now apply (fit_init_eq g self X n d)|].
    split; [assumption|].
    destruct Hs as (_ & _ & Hp & _).
    repeat split; assumption.
  - intros s s' H. destruct (em_iteration_frame s s' X H) as (_ & _ & A & B).
    split; assumption.
Qed.

(** *** The iterations of fit *)

Lemma responsibility_pos (m c p : Tensor) (k d comp : nat) (x : nat -> R) :
  0 < responsibility m c p k d comp x.
Proof. unfold responsibility. apply exp_pos. Qed.



(** The state at the start of iteration [iter] of the loop of [fit] has
    parameters of the shapes set by the initialization. *)
Lemma fit_iteration_state (g : Generator) (self : TFHMM.t) (X : Tensor) (n d iter : nat) :
  shape X = [n; d] -> (0 <= n_components self)%Z ->
  exists s m c,
    fit_init g self X = Ok (initial_state g self d, advance (advance (advance g))) /\
    em_loop iter (initial_state g self d) X = Ok s /\
    shaped s (Z.to_nat (n_components self)) d m c
           (initial_startprob g (Z.to_nat (n_components self))).
Proof.
  intros HX Hk.
  destruct (em_loop_shaped iter (initial_state g self d) X
              _ _ _ _ d n (initial_state_shaped g self d) HX)
    as (s & m & c & Hl & Hs & _).
  exists s, m, c. split; [now apply (fit_init_eq g self X n d)|].
  split; assumption.
Qed.

(** C2.  In every iteration of [fit], with [resp] the responsibilities of
    the E-step of that iteration and [denom_c = sum_i resp[c][i]], the
    state after the iteration has
    [mean_c = (sum_i resp[c][i] * x_i) / denom_c] and
    [var_c = (sum_i resp[c][i] * (x_i - mean_c)^2) / denom_c], where
    [mean_c] is the mean after the iteration. *)
Theorem m_step_updates_means_then_variances
  (g : Generator) (self : TFHMM.t) (X : Tensor) (n d iter : nat) :
  shape X = [n; d] -> (0 <= n_components self)%Z ->
  let k := Z.to_nat (n_components self) in
  exists s0 g' s resp s' m' c',
    fit_init g self X = Ok (s0, g') /\ em_loop iter s0 X = Ok s /\
    e_step s X = Ok resp /\ shape resp = [k; n] /\
    em_loop (S iter) s0 X = Ok s' /\
    means_ s' = Some m' /\ covars_ s' = Some c' /\
    shape m' = [k; d] /\ shape c' = [k; d] /\
    forall comp j, (comp < k)%nat -> (j < d)%nat ->
      let denom := sum_upto n (fun i => get resp [comp; i]) in
      get m' [comp; j]
      = sum_upto n (fun i => get resp [comp; i] * get X [i; j]) / denom /\
      get c' [comp; j]
      = sum_upto n (fun i => get resp [comp; i]
                             * (get X [i; j] - get m' [comp; j]) ^ 2) / denom.
Proof.
  intros HX Hk k.
  destruct (fit_iteration_state g self X n d iter HX Hk)
    as (s & m & c & Hinit & Hloop & Hs).
  destruct (e_step_entries s X m c _ _ d n Hs HX) as (resp & He & Hsr & _).
  destruct (m_step_entries s X resp m c _ _ d n Hs HX Hsr)
    as (s' & m' & c' & Hm & Hs' & _ & _ & _ & Hv).
  exists (initial_state g self d), (advance (advance (advance g))), s, resp, s', m', c'.
  destruct Hs' as (Hm' & Hc' & _ & Hsm' & Hsc' & _).
  repeat (split; [assumption|]).
  split.
  { cbn [em_loop]. rewrite Hloop. cbn [bind]. unfold em_iteration.
    rewrite He. cbn [bind]. assumption. }
  repeat (split; [assumption|]).
  intros comp j Hcomp Hj. apply (Hv comp j Hcomp Hj).
Qed.

(** *** Dimensions *)

(** When the observations and the parameters have the same number of
    features, or one of the two numbers is 1, the arrays broadcast. *)
Lemma compute_log_likelihood_broadcasts
  (self : TFHMM.t) (X m c : Tensor) (k d d' n : nat) :
  means_ self = Some m -> covars_ self = Some c ->
  shape m = [k; d] -> shape c = [k; d] -> shape X = [n; d'] ->
  d' = d \/ d' = 1%nat \/ d = 1%nat ->
  exists L, _compute_log_likelihood self X = Ok L /\ shape L = [k; n].
Proof.
  destruct X as [sX fX], m as [sm fm], c as [sc fc]. simpl.
  intros Hm Hc -> -> -> Hd.
  unfold _compute_log_likelihood, covars_expanded. rewrite Hm, Hc.
  destruct Hd as [->|[->| ->]]; tf_norm; eexists; split; reflexivity.
Qed.

Lemma compute_log_likelihood_mismatch
  (self : TFHMM.t) (X m c : Tensor) (k d d' n : nat) :
  means_ self = Some m -> covars_ self = Some c ->
  shape m = [k; d] -> shape c = [k; d] -> shape X = [n; d'] ->
  d' <> d -> d' <> 1%nat -> d <> 1%nat ->
  _compute_log_likelihood self X = Raise InvalidArgumentError.
Proof.
  destruct X as [sX fX], m as [sm fm], c as [sc fc]. simpl.
  intros Hm Hc -> -> -> H1 H2 H3.
  unfold _compute_log_likelihood, covars_expanded. rewrite Hm, Hc. tf_norm.
  rewrite (broadcast_dim_mismatch d' d H1 H2 H3). reflexivity.
Qed.

Lemma fit_negative_components (g : Generator) (self : TFHMM.t) (X : Tensor) (n d : nat) :
  shape X = [n; d] -> (n_components self < 0)%Z -> fit g self X = Raise ValueError.
Proof.
  intros HX Hk. unfold fit, fit_init, unpack_shape. rewrite HX. cbn [bind].
  unfold random_normal, shape_of.
  assert (E : (n_components self <? 0)%Z = true) by (apply Z.ltb_lt; assumption).
  rewrite E. reflexivity.
Qed.

Lemma argmax_upto_one (f : nat -> R) : argmax_upto 1 f = O.
Proof. cbn. destruct (Rgtb (f O) (f O)); reflexivity. Qed.

Lemma predict_wide_model_narrow_samples :
  predict wide_model narrow_samples = Ok [O; O].
Proof.
  destruct (compute_log_likelihood_broadcasts wide_model narrow_samples
              (of_rows 2 [[0; 0]]) (of_rows 2 [[1; 1]]) 1 2 1 2
              eq_refl eq_refl eq_refl eq_refl eq_refl ltac:(auto))
    as (L & HL & HsL).
  unfold predict. rewrite HL. cbn [bind].
  rewrite (argmax_axis0_labels L 1 2 HsL) by lia.
  cbn [seq map]. now rewrite !argmax_upto_one.
Qed.

(** C6, as the specification states it, fails: an object with no component is
    created without an error, and [predict] labels one-feature samples
    with a two-feature model. *)
Lemma dimensions_are_not_validated :
  (0 < 1)%Z /\ __init__ 0 100 = Ok (mk 0 100 None None None None) /\
  shape narrow_samples = [2%nat; 1%nat] /\
  (exists m, means_ wide_model = Some m /\ shape m = [1%nat; 2%nat]) /\
  predict wide_model narrow_samples = Ok [O; O].
Proof.
  split; [lia|]. split; [reflexivity|]. split; [reflexivity|].
  split; [eexists; split; reflexivity|].
  apply predict_wide_model_narrow_samples.
Qed.

(** C6, amended.  [__init__] never fails.  [fit] takes the number of
    features from the observations: on a two-dimensional array it
    returns whenever the number of components is not negative, whatever
    the object held before, and fails when it is negative.  [predict],
    for parameters of shape [k, d] with [k >= 1] and observations of
    shape [n, d'], returns when [d' = d] or one of [d'], [d] is 1, and
    otherwise fails with TensorFlow's error for incompatible shapes,
    which is its result. *)
Theorem dimension_errors_come_from_tensor_shapes :
  (forall k iters : Z, __init__ k iters = Ok (mk k iters None None None None)) /\
  (forall (g : Generator) (self : TFHMM.t) (X : Tensor) (n d : nat),
     shape X = [n; d] ->
     ((0 <= n_components self)%Z -> succeeds (fit g self X)) /\
     ((n_components self < 0)%Z -> exists e, fit g self X = Raise e)) /\
  (forall (self : TFHMM.t) (X m c : Tensor) (k d d' n : nat),
     means_ self = Some m -> covars_ self = Some c ->
     shape m = [k; d] -> shape c = [k; d] -> shape X = [n; d'] -> (1 <= k)%nat ->
     (d' = d \/ d' = 1%nat \/ d = 1%nat -> succeeds (predict self X)) /\
     (d' <> d -> d' <> 1%nat -> d <> 1%nat ->
      predict self X = Raise InvalidArgumentError)).
Proof.
  split; [reflexivity|]. split.
  - intros g self X n d HX. split.
    + intros Hk. destruct (fit_returns g self X n d HX Hk) as (s & _ & _ & Hfit & _).
      eexists. exact Hfit.
    + intros Hk. exists ValueError. now apply (fit_negative_components g self X n d).
  - intros self X m c k d d' n Hm Hc Hsm Hsc HX Hk. split.
    + intros Hd.
      destruct (compute_log_likelihood_broadcasts self X m c k d d' n
                  Hm Hc Hsm Hsc HX Hd) as (L & HL & HsL).
      unfold predict. rewrite HL. cbn [bind].
      rewrite (argmax_axis0_labels L k n HsL Hk). eexists. reflexivity.
    + intros H1 H2 H3. unfold predict.
      rewrite (compute_log_likelihood_mismatch self X m c k d d' n
                 Hm Hc Hsm Hsc HX H1 H2 H3).
      reflexivity.
Qed.

(** *** Divisors *)

Lemma covars_expanded_entries (self : TFHMM.t) (c : Tensor) (k d : nat) :
  covars_ self = Some c -> shape c = [k; d] ->
  exists ce, covars_expanded self = Ok ce /\ shape ce = [k; 1%nat; d] /\
    forall comp j, get ce [comp; O; j] = get c [comp; j].
Proof.
  destruct c as [sc fc]. simpl. intros Hc ->.
  unfold covars_expanded. rewrite Hc. tf_norm.
  eexists. split; [reflexivity|]. split; reflexivity.
Qed.

(** One iteration on one sample: the mean becomes the sample and the
    variance 0. *)
Lemma fit_single_sample (g : Generator) :
  exists s m c,
    fit g new_model single_sample = Ok (s, advance (advance (advance g))) /\
    means_ s = Some m /\ covars_ s = Some c /\
    shape m = [1%nat; 1%nat] /\ shape c = [1%nat; 1%nat] /\
    get m [O; O] = 3 /\ get c [O; O] = 0.
Proof.
  destruct (fit_returns g new_model single_sample 1 1 eq_refl ltac:(cbn; lia))
    as (s & m' & c' & Hfit & Hloop & Hs & _).
  pose proof (initial_state_shaped g new_model 1) as H0. cbn zeta in H0.
  change (Z.to_nat (n_components new_model)) with 1%nat in *.
  change (Z.to_nat (n_iter new_model)) with 1%nat in Hloop.
  destruct (e_step_entries _ single_sample _ _ _ 1 1 1 H0 eq_refl)
    as (resp & He & Hsr & Hv).
  destruct (m_step_entries _ single_sample resp _ _ _ 1 1 1 H0 eq_refl Hsr)
    as (s' & m & c & Hm & Hs' & _ & _ & _ & Hf).
  assert (s = s') as <-.
  { cbn [em_loop bind] in Hloop. unfold em_iteration in Hloop.
    rewrite He in Hloop. cbn [bind] in Hloop. congruence. }
  destruct Hs' as (Hms & Hcs & _ & Hsm & Hsc & _).
  exists s, m, c. repeat (split; [assumption|]).
  destruct (Hf O O ltac:(lia) ltac:(lia)) as (Em & Ec).
  assert (Hr : 0 < get resp [O; O])
    by (rewrite (Hv O O) by lia; apply responsibility_pos).
  unfold occupancy in Em, Ec. cbn [sum_upto single_sample of_rows get nth] in Em, Ec.
  assert (Em' : get m [O; O] = 3) by (rewrite Em; field; lra).
  split; [assumption|].
  rewrite Ec, Em'. field. lra.
Qed.

(** C7, as the specification states it, fails: after one iteration of [fit] on a
    single sample the variance is 0, and the divisor of the next
    log-likelihood evaluation is that 0, below every positive epsilon. *)
Lemma variance_zero_is_the_divisor :
  exists s g' ce,
    fit generator_5 new_model single_sample = Ok (s, g') /\
    covars_expanded s = Ok ce /\ shape ce = [1%nat; 1%nat; 1%nat] /\
    get ce [O; O; O] = 0 /\
    forall eps, 0 < eps -> ~ eps <= get ce [O; O; O].
Proof.
  destruct (fit_single_sample generator_5)
    as (s & m & c & Hfit & _ & Hc & _ & Hsc & _ & Hz).
  destruct (covars_expanded_entries s c 1 1 Hc Hsc) as (ce & Hce & Hsce & Hv).
  exists s, (advance (advance (advance generator_5))), ce.
  repeat (split; [assumption|]).
  assert (E : get ce [O; O; O] = 0) by (now rewrite Hv).
  split; [assumption|]. intros eps Heps. rewrite E. lra.
Qed.

(** C7, amended.  The log-likelihood evaluation divides by the stored
    variances as they are: the divisor [covars_expanded] has shape
    [k, 1, d] and its entry for component [comp] and feature [j] is the
    stored variance; when every stored variance is positive every divisor
    is positive, hence not zero, and the entries of the result are the
    log-densities for those variances. *)
Theorem log_likelihood_divides_by_the_stored_variance
  (self : TFHMM.t) (X m c : Tensor) (k d n : nat) :
  means_ self = Some m -> covars_ self = Some c ->
  shape m = [k; d] -> shape c = [k; d] -> shape X = [n; d] ->
  (forall comp j, (comp < k)%nat -> (j < d)%nat -> 0 < get c [comp; j]) ->
  exists ce L,
    covars_expanded self = Ok ce /\ shape ce = [k; 1%nat; d] /\
    (forall comp j, (comp < k)%nat -> (j < d)%nat ->
       get ce [comp; O; j] = get c [comp; j] /\ 0 < get ce [comp; O; j]) /\
    _compute_log_likelihood self X = Ok L /\
    forall comp i, (comp < k)%nat -> (i < n)%nat ->
      get L [comp; i]
      = -0.5 * sum_upto d (fun j => (get X [i; j] - get m [comp; j]) ^ 2
                                    / get ce [comp; O; j])
        - 0.5 * sum_upto d (fun j => ln (2 * PI * get ce [comp; O; j])).
Proof.
  intros Hm Hc Hsm Hsc HX Hpos.
  destruct (covars_expanded_entries self c k d Hc Hsc) as (ce & Hce & Hsce & Hv).
  destruct (compute_log_likelihood_entries self X m c k d n Hm Hc Hsm Hsc HX)
    as (L & HL & _ & HeL).
  exists ce, L. repeat (split; [assumption|]). split.
  - intros comp j Hcomp Hj. rewrite Hv. split; [reflexivity | now apply Hpos].
  - split; [assumption|]. intros comp i Hcomp Hi.
    rewrite (HeL comp i Hcomp Hi). unfold gaussian_log_density, row.
    f_equal; f_equal; apply sum_upto_ext; intros j Hj; now rewrite Hv.
Qed.



(** *** Further facts *)

(** [predict] gives the same labels for parameters that agree within
    their shape. *)
Lemma predict_same_parameters
  (self1 self2 : TFHMM.t) (X m1 c1 m2 c2 : Tensor) (k d n : nat) :
  means_ self1 = Some m1 -> covars_ self1 = Some c1 ->
  means_ self2 = Some m2 -> covars_ self2 = Some c2 ->
  shape m1 = [k; d] -> shape c1 = [k; d] ->
  same_tensor m1 m2 -> same_tensor c1 c2 ->
  shape X = [n; d] -> (1 <= k)%nat ->
  predict self1 X = predict self2 X.
Proof.
  intros Hm1 Hc1 Hm2 Hc2 Hsm Hsc (Esm & Em) (Esc & Ec) HX Hk.
  rewrite (predict_labels self1 X m1 c1 k d n) by assumption.
  rewrite (predict_labels self2 X m2 c2 k d n) by congruence.
  f_equal. apply map_ext. intros i. unfold sample_label.
  apply argmax_upto_ext. intros comp Hcomp. unfold gaussian_log_density.
  assert (R1 : forall j, (j < d)%nat -> get m1 [comp; j] = get m2 [comp; j]).
  { intros j Hj. apply Em. rewrite Hsm. repeat constructor; assumption. }
  assert (R2 : forall j, (j < d)%nat -> get c1 [comp; j] = get c2 [comp; j]).
  { intros j Hj. apply Ec. rewrite Hsc. repeat constructor; assumption. }
  f_equal; f_equal; apply sum_upto_ext; intros j Hj;
    rewrite ?(R1 j Hj), ?(R2 j Hj); reflexivity.
Qed.

(** The variance update reads the mean of the same iteration: on one
    sample of value 3 and a mean of 5 before the iteration, the variance
    after it is [(3 - 3)^2], not [(3 - 5)^2]. *)
Lemma variance_update_reads_the_new_mean :
  exists s m c,
    fit generator_5 new_model single_sample
      = Ok (s, advance (advance (advance generator_5))) /\
    get (initial_means generator_5 1 1) [O; O] = 5 /\
    means_ s = Some m /\ covars_ s = Some c /\
    get m [O; O] = 3 /\ get c [O; O] = (3 - get m [O; O]) ^ 2 /\
    get c [O; O] <> (3 - 5) ^ 2.
Proof.
  destruct (fit_single_sample generator_5)
    as (s & m & c & Hfit & Hm & Hc & _ & _ & Em & Ec).
  exists s, m, c. split; [assumption|]. split; [reflexivity|].
  repeat (split; [assumption|]).
  rewrite Ec, Em. split; lra.
Qed.

(** [apply_gpu_hmm] with at least one state returns one label per sample
    of the signal. *)
Lemma apply_gpu_hmm_returns (g : Generator) (signal : list R) (n_states : Z) :
  (1 <= n_states)%Z ->
  exists hidden_states,
    apply_gpu_hmm g signal n_states = Ok hidden_states /\
    length hidden_states = length signal.
Proof.
  intros Hk. unfold apply_gpu_hmm, __init__. cbn [bind].
  set (X := of_rows 1 (map (fun x => [x]) signal)).
  assert (HX : shape X = [length signal; 1%nat])
    by (unfold X, of_rows; cbn [shape]; now rewrite length_map).
  destruct (fit_returns g (mk n_states 100 None None None None) X
              (length signal) 1 HX ltac:(cbn; lia))
    as (s & m & c & Hfit & _ & (Hm & Hc & _ & Hsm & Hsc & _) & _).
  rewrite Hfit. cbn [bind n_components] in *.
  rewrite (predict_labels s X m c (Z.to_nat n_states) 1 (length signal))
    by (assumption || lia).
  eexists. split; [reflexivity|]. now rewrite length_map, length_seq.
Qed.

(** ** Instances of the theorems *)

Lemma log_likelihood_matrix_is_gaussian_log_density_witness :
  (means_ two_components = Some (of_rows 1 [[0]; [1]]) /\
   covars_ two_components = Some (of_rows 1 [[1]; [1]]) /\
   shape (of_rows 1 [[0]; [1]]) = [2%nat; 1%nat] /\
   shape (of_rows 1 [[1]; [1]]) = [2%nat; 1%nat] /\
   shape one_sample = [1%nat; 1%nat]) /\
  exists L, _compute_log_likelihood two_components one_sample = Ok L /\
    shape L = [2%nat; 1%nat] /\
    forall comp i, (comp < 2)%nat -> (i < 1)%nat ->
      get L [comp; i]
      = -0.5 * sum_upto 1 (fun j => (get one_sample [i; j]
                                     - get (of_rows 1 [[0]; [1]]) [comp; j]) ^ 2
                                    / get (of_rows 1 [[1]; [1]]) [comp; j])
        - 0.5 * sum_upto 1 (fun j => ln (2 * PI * get (of_rows 1 [[1]; [1]]) [comp; j])).
Proof.
  split; [repeat split; reflexivity|].
  apply (log_likelihood_matrix_is_gaussian_log_density two_components one_sample
           (of_rows 1 [[0]; [1]]) (of_rows 1 [[1]; [1]]) 2 1 1); reflexivity.
Defined.

Lemma predict_labels_each_sample_alone_witness :
  (means_ two_components = Some (of_rows 1 [[0]; [1]]) /\
   covars_ two_components = Some (of_rows 1 [[1]; [1]]) /\
   shape (of_rows 1 [[0]; [1]]) = [2%nat; 1%nat] /\
   shape (of_rows 1 [[1]; [1]]) = [2%nat; 1%nat] /\
   shape one_sample = [1%nat; 1%nat] /\ (1 <= 2)%nat) /\
  exists labels,
    predict two_components one_sample = Ok labels /\ length labels = 1%nat /\
    (forall i, (i < 1)%nat ->
       first_argmax 2
         (fun comp => gaussian_log_density (of_rows 1 [[0]; [1]])
                        (of_rows 1 [[1]; [1]]) 1 comp (row one_sample i))
         (nth i labels O)) /\
    (forall self' X' n' labels' i i',
       means_ self' = Some (of_rows 1 [[0]; [1]]) ->
       covars_ self' = Some (of_rows 1 [[1]; [1]]) ->
       shape X' = [n'; 1%nat] -> predict self' X' = Ok labels' ->
       (i < 1)%nat -> (i' < n')%nat ->
       (forall j, (j < 1)%nat -> get X' [i'; j] = get one_sample [i; j]) ->
       nth i' labels' O = nth i labels O).
Proof.
  split; [repeat split; reflexivity || lia|].
  apply (predict_labels_each_sample_alone two_components one_sample
           (of_rows 1 [[0]; [1]]) (of_rows 1 [[1]; [1]]) 2 1 1);
    reflexivity || lia.
Defined.

Lemma fit_sets_startprob_and_transmat_before_the_loop_witness :
  (shape two_samples = [2%nat; 1%nat] /\
   (0 <= n_components new_model_two_components)%Z) /\
  (exists s0 g' s,
     fit_init generator_5 new_model_two_components two_samples = Ok (s0, g') /\
     fit generator_5 new_model_two_components two_samples = Ok (s, g') /\
     transmat_ s = transmat_ s0 /\ startprob_ s = startprob_ s0 /\
     transmat_ s = Some (initial_transmat generator_5 2) /\
     startprob_ s = Some (initial_startprob generator_5 2)) /\
  (forall s s', em_iteration s two_samples = Ok s' ->
     transmat_ s' = transmat_ s /\ startprob_ s' = startprob_ s).
Proof.
  split; [split; [reflexivity | cbn; lia]|].
  apply (fit_sets_startprob_and_transmat_before_the_loop generator_5
           new_model_two_components two_samples 2 1); [reflexivity | cbn; lia].
Defined.

Lemma m_step_updates_means_then_variances_witness :
  (shape two_samples = [2%nat; 1%nat] /\
   (0 <= n_components new_model_two_components)%Z) /\
  exists s0 g' s resp s' m' c',
    fit_init generator_5 new_model_two_components two_samples = Ok (s0, g') /\
    em_loop 1 s0 two_samples = Ok s /\
    e_step s two_samples = Ok resp /\ shape resp = [2%nat; 2%nat] /\
    em_loop 2 s0 two_samples = Ok s' /\
    means_ s' = Some m' /\ covars_ s' = Some c' /\
    shape m' = [2%nat; 1%nat] /\ shape c' = [2%nat; 1%nat] /\
    forall comp j, (comp < 2)%nat -> (j < 1)%nat ->
      let denom := sum_upto 2 (fun i => get resp [comp; i]) in
      get m' [comp; j]
      = sum_upto 2 (fun i => get resp [comp; i] * get two_samples [i; j]) / denom /\
      get c' [comp; j]
      = sum_upto 2 (fun i => get resp [comp; i]
                             * (get two_samples [i; j] - get m' [comp; j]) ^ 2) / denom.
Proof.
  split; [split; [reflexivity | cbn; lia]|].
  apply (m_step_updates_means_then_variances generator_5
           new_model_two_components two_samples 2 1 1); [reflexivity | cbn; lia].
Defined.

Lemma unit_variances_positive (comp j : nat) :
  (comp < 2)%nat -> (j < 1)%nat -> 0 < get (of_rows 1 [[1]; [1]]) [comp; j].
Proof.
  intros Hc Hj. destruct comp as [|[|comp]]; [| |lia];
    (destruct j as [|j]; [cbn; lra | lia]).
Defined.

Lemma log_likelihood_divides_by_the_stored_variance_witness :
  (means_ two_components = Some (of_rows 1 [[0]; [1]]) /\
   covars_ two_components = Some (of_rows 1 [[1]; [1]]) /\
   shape (of_rows 1 [[0]; [1]]) = [2%nat; 1%nat] /\
   shape (of_rows 1 [[1]; [1]]) = [2%nat; 1%nat] /\
   shape one_sample = [1%nat; 1%nat] /\
   (forall comp j, (comp < 2)%nat -> (j < 1)%nat ->
      0 < get (of_rows 1 [[1]; [1]]) [comp; j])) /\
  exists ce L,
    covars_expanded two_components = Ok ce /\ shape ce = [2%nat; 1%nat; 1%nat] /\
    (forall comp j, (comp < 2)%nat -> (j < 1)%nat ->
       get ce [comp; O; j] = get (of_rows 1 [[1]; [1]]) [comp; j] /\
       0 < get ce [comp; O; j]) /\
    _compute_log_likelihood two_components one_sample = Ok L /\
    forall comp i, (comp < 2)%nat -> (i < 1)%nat ->
      get L [comp; i]
      = -0.5 * sum_upto 1 (fun j => (get one_sample [i; j]
                                     - get (of_rows 1 [[0]; [1]]) [comp; j]) ^ 2
                                    / get ce [comp; O; j])
        - 0.5 * sum_upto 1 (fun j => ln (2 * PI * get ce [comp; O; j])).
Proof.
  split; [repeat (split; [reflexivity|]); exact unit_variances_positive|].
  apply (log_likelihood_divides_by_the_stored_variance two_components one_sample
           (of_rows 1 [[0]; [1]]) (of_rows 1 [[1]; [1]]) 2 1 1);
    try reflexivity. exact unit_variances_positive.
Defined.

Lemma dimension_errors_come_from_tensor_shapes_witness :
  (shape two_samples = [2%nat; 1%nat] /\ (0 <= n_components two_components)%Z /\
   succeeds (fit generator_5 two_components two_samples)) /\
  (shape two_samples = [2%nat; 1%nat] /\ (n_components negative_components < 0)%Z /\
   exists e, fit generator_5 negative_components two_samples = Raise e) /\
  (means_ wide_model = Some (of_rows 2 [[0; 0]]) /\
   covars_ wide_model = Some (of_rows 2 [[1; 1]]) /\
   shape (of_rows 2 [[0; 0]]) = [1%nat; 2%nat] /\
   shape (of_rows 2 [[1; 1]]) = [1%nat; 2%nat] /\
   shape narrow_samples = [2%nat; 1%nat] /\
   shape three_features = [1%nat; 3%nat] /\ (1 <= 1)%nat /\
   succeeds (predict wide_model narrow_samples) /\
   predict wide_model three_features = Raise InvalidArgumentError).
Proof.
  destruct dimension_errors_come_from_tensor_shapes as (_ & Hfit & Hpredict).
  split; [|split].
  - split; [reflexivity|]. split; [cbn; lia|].
    apply (Hfit generator_5 two_components two_samples 2%nat 1%nat eq_refl).
    cbn; lia.
  - split; [reflexivity|]. split; [cbn; lia|].
    apply (Hfit generator_5 negative_components two_samples 2%nat 1%nat eq_refl).
    cbn; lia.
  - repeat (split; [reflexivity || lia|]). split.
    + apply (proj1 (Hpredict wide_model narrow_samples (of_rows 2 [[0; 0]])
                      (of_rows 2 [[1; 1]]) 1%nat 2%nat 1%nat 2%nat
                      eq_refl eq_refl eq_refl eq_refl eq_refl (le_n 1))).
      right; left; reflexivity.
    + apply (proj2 (Hpredict wide_model three_features (of_rows 2 [[0; 0]])
                      (of_rows 2 [[1; 1]]) 1%nat 2%nat 3%nat 1%nat
                      eq_refl eq_refl eq_refl eq_refl eq_refl (le_n 1))); lia.
Defined.

(** * The preprocessing functions *)

Import Preprocessing.

(** ** Sums and means of arrays *)

Lemma np_sum_app (a b : list R) : np_sum (a ++ b) = np_sum a + np_sum b.
Proof.
  unfold np_sum. induction a as [|x a IH]; simpl; [ring | rewrite IH; ring].
Qed.

Lemma np_sum_map_affine (a : list R) (s t : R) :
  np_sum (map (fun x => s * x + t) a) = s * np_sum a + INR (length a) * t.
Proof.
  unfold np_sum. induction a as [|x a IH]; [simpl; ring|].
  cbn [map fold_right]. rewrite IH.
  change (length (x :: a)) with (S (length a)). rewrite S_INR. ring.
Qed.

Lemma np_sum_map_ext (a : list R) (f g : R -> R) :
  (forall x, In x a -> f x = g x) -> np_sum (map f a) = np_sum (map g a).
Proof.
  intros E. f_equal. apply map_ext_in. exact E.
Qed.

Lemma np_sum_bounds (a : list R) (lo hi : R) :
  (forall x, In x a -> lo <= x <= hi) ->
  INR (length a) * lo <= np_sum a <= INR (length a) * hi.
Proof.
  unfold np_sum. induction a as [|x a IH]; intros H.
  - simpl. lra.
  - change (length (x :: a)) with (S (length a)). rewrite S_INR. cbn [fold_right].
    assert (lo <= x <= hi) by (apply H; left; reflexivity).
    assert (INR (length a) * lo <= fold_right Rplus 0 a <= INR (length a) * hi)
      by (apply IH; intros y Hy; apply H; right; assumption).
    lra.
Qed.

Lemma INR_length_pos (a : list R) : a <> [] -> 0 < INR (length a).
Proof.
  intros H. destruct a as [|x a]; [contradiction|].
  change (length (x :: a)) with (S (length a)). rewrite S_INR.
  pose proof (pos_INR (length a)). lra.
Qed.

Lemma np_mean_bounds (a : list R) (lo hi : R) :
  a <> [] -> (forall x, In x a -> lo <= x <= hi) -> lo <= np_mean a <= hi.
Proof.
  intros Hne H. pose proof (INR_length_pos a Hne) as Hn.
  destruct (np_sum_bounds a lo hi H) as [H1 H2]. unfold np_mean. split.
  - apply Rmult_le_reg_r with (INR (length a)); [assumption|].
    unfold Rdiv. rewrite Rmult_assoc, Rinv_l by lra. lra.
  - apply Rmult_le_reg_r with (INR (length a)); [assumption|].
    unfold Rdiv. rewrite Rmult_assoc, Rinv_l by lra. lra.
Qed.

Lemma np_mean_map_affine (a : list R) (s t : R) :
  a <> [] -> np_mean (map (fun x => s * x + t) a) = s * np_mean a + t.
Proof.
  intros Hne. pose proof (INR_length_pos a Hne) as Hn.
  unfold np_mean. rewrite length_map, np_sum_map_affine. field. lra.
Qed.

Lemma np_std_nonneg (a : list R) : 0 <= np_std a.
Proof. unfold np_std. apply sqrt_pos. Qed.

Lemma np_sum_nonneg (a : list R) :
  (forall x, In x a -> 0 <= x) -> 0 <= np_sum a.
Proof.
  intros H. destruct (np_sum_bounds a 0 (np_sum a)) as [H1 _].
  - intros x Hx. split; [now apply H|].
    unfold np_sum. induction a as [|y a IH]; [contradiction|].
    cbn [fold_right].
    assert (0 <= fold_right Rplus 0 a).
    { clear IH Hx. induction a as [|z a IH]; simpl; [lra|].
      assert (0 <= z) by (apply H; right; left; reflexivity).
      assert (0 <= fold_right Rplus 0 a)
        by (apply IH; intros w [->|Hw]; apply H; [left|right; right]; auto).
      lra. }
    assert (0 <= y) by (apply H; left; reflexivity).
    destruct Hx as [->|Hx]; [lra|].
    assert (x <= fold_right Rplus 0 a)
      by (apply IH; [intros w Hw; apply H; right; assumption | assumption]).
    lra.
  - lra.
Qed.

Lemma np_var_nonneg (a : list R) : 0 <= np_var a.
Proof.
  unfold np_var, np_mean. apply Rmult_le_pos.
  - apply np_sum_nonneg. intros y Hy. apply in_map_iff in Hy.
    destruct Hy as (x & <- & _). apply pow2_ge_0.
  - destruct a as [|x a]; [simpl; rewrite Rinv_0; lra|].
    left. apply Rinv_0_lt_compat. rewrite length_map.
    apply INR_length_pos. discriminate.
Qed.

Lemma np_std_sqr (a : list R) : np_std a * np_std a = np_var a.
Proof. unfold np_std. fold (np_var a). apply sqrt_sqrt, np_var_nonneg. Qed.

Lemma np_std_pos_nonempty (a : list R) : 0 < np_std a -> a <> [].
Proof.
  intros H ->. unfold np_std, np_mean, np_sum in H. simpl in H.
  unfold Rdiv in H. rewrite Rmult_0_l, sqrt_0 in H. lra.
Qed.

(** ** standardize_signal *)

Lemma np_sum_map_scal (a : list R) (f : R -> R) (s : R) :
  np_sum (map (fun x => s * f x) a) = s * np_sum (map f a).
Proof.
  unfold np_sum. induction a as [|x a IH]; simpl; [ring | rewrite IH; ring].
Qed.

Lemma standardize_signal_affine (signal : list R) :
  standardize_signal signal
  = map (fun x => / np_std signal * x + - np_mean signal / np_std signal) signal.
Proof.
  unfold standardize_signal. apply map_ext. intros x. unfold Rdiv. ring.
Qed.

Lemma np_var_map_affine (a : list R) (s t : R) :
  a <> [] -> np_var (map (fun x => s * x + t) a) = s ^ 2 * np_var a.
Proof.
  intros Hne. unfold np_var.
  rewrite (np_mean_map_affine a s t Hne), map_map.
  unfold np_mean. rewrite !length_map.
  rewrite (np_sum_map_ext a _ (fun x => s ^ 2 * (x - np_sum a / INR (length a)) ^ 2))
    by (intros x _; ring).
  rewrite np_sum_map_scal. unfold Rdiv. ring.
Qed.

Lemma np_std_map_affine (a : list R) (s t : R) :
  a <> [] -> 0 <= s -> np_std (map (fun x => s * x + t) a) = s * np_std a.
Proof.
  intros Hne Hs. unfold np_std. fold (np_var (map (fun x => s * x + t) a)).
  fold (np_var a). rewrite (np_var_map_affine a s t Hne).
  rewrite sqrt_mult by (try apply pow2_ge_0; apply np_var_nonneg).
  rewrite <- Rsqr_pow2, sqrt_Rsqr by assumption. reflexivity.
Qed.

Lemma standardize_signal_moments (signal : list R) :
  0 < np_std signal ->
  np_mean (standardize_signal signal) = 0 /\
  np_std (standardize_signal signal) = 1.
Proof.
  intros Hstd. pose proof (np_std_pos_nonempty signal Hstd) as Hne.
  rewrite standardize_signal_affine. split.
  - rewrite (np_mean_map_affine signal _ _ Hne). field. lra.
  - rewrite (np_std_map_affine signal _ _ Hne)
      by (left; apply Rinv_0_lt_compat; assumption).
    field. lra.
Qed.

Lemma np_std_signal_0_2 : np_std signal_0_2 = 1.
Proof.
  unfold np_std, np_mean, np_sum, signal_0_2. cbn [map fold_right length INR].
  replace (_ / (1 + 1)) with 1 by field. apply sqrt_1.
Qed.

Lemma np_std_signal_0_2_pos : 0 < np_std signal_0_2.
Proof. rewrite np_std_signal_0_2. lra. Qed.

(** X1.  When the standard deviation of the signal is positive, the
    standardized signal has as many samples, mean 0 and standard
    deviation 1. *)
Theorem standardize_signal_zero_mean_unit_std (signal : list R) :
  0 < np_std signal ->
  length (standardize_signal signal) = length signal /\
  np_mean (standardize_signal signal) = 0 /\
  np_std (standardize_signal signal) = 1.
Proof.
  intros Hstd.
  split; [unfold standardize_signal; apply length_map|].
  now apply standardize_signal_moments.
Qed.

Lemma standardize_signal_zero_mean_unit_std_witness :
  0 < np_std signal_0_2 /\
  (length (standardize_signal signal_0_2) = length signal_0_2 /\
   np_mean (standardize_signal signal_0_2) = 0 /\
   np_std (standardize_signal signal_0_2) = 1).
Proof.
  split; [exact np_std_signal_0_2_pos|].
  apply (standardize_signal_zero_mean_unit_std signal_0_2).
  exact np_std_signal_0_2_pos.
Defined.

(** X2.  Standardization forgets the unit and the offset of the signal:
    the signal [s * x + t], with [s > 0], standardizes to the same
    samples as [x], when the standard deviation of [x] is positive. *)
Theorem standardize_signal_affine_invariant (signal : list R) (s t : R) :
  0 < s -> 0 < np_std signal ->
  standardize_signal (map (fun x => s * x + t) signal) = standardize_signal signal.
Proof.
  intros Hs Hstd. pose proof (np_std_pos_nonempty signal Hstd) as Hne.
  unfold standardize_signal. rewrite map_map.
  rewrite (np_mean_map_affine signal s t Hne).
  rewrite (np_std_map_affine signal s t Hne) by lra.
  apply map_ext. intros x. field. lra.
Qed.

Lemma standardize_signal_affine_invariant_witness :
  (0 < 3 /\ 0 < np_std signal_0_2) /\
  standardize_signal (map (fun x => 3 * x + 7) signal_0_2)
  = standardize_signal signal_0_2.
Proof.
  split; [split; [lra | exact np_std_signal_0_2_pos]|].
  apply (standardize_signal_affine_invariant signal_0_2 3 7);
    [lra | exact np_std_signal_0_2_pos].
Defined.

(** X3.  Standardizing a standardized signal changes nothing, when the
    standard deviation of the signal is positive. *)
Theorem standardize_signal_idempotent (signal : list R) :
  0 < np_std signal ->
  standardize_signal (standardize_signal signal) = standardize_signal signal.
Proof.
  intros Hstd.
  destruct (standardize_signal_moments signal Hstd) as (Hm & Hs).
  unfold standardize_signal at 1. rewrite Hm, Hs.
  rewrite <- (map_id (standardize_signal signal)) at 2.
  apply map_ext. intros x. field.
Qed.

Lemma standardize_signal_idempotent_witness :
  0 < np_std signal_0_2 /\
  standardize_signal (standardize_signal signal_0_2) = standardize_signal signal_0_2.
Proof.
  split; [exact np_std_signal_0_2_pos|].
  apply (standardize_signal_idempotent signal_0_2). exact np_std_signal_0_2_pos.
Defined.

(** ** interpolate_signal *)

Lemma length_mask_set (view : list R) (mask : list bool) (v : R) :
  length (mask_set view mask v) = length view.
Proof.
  revert mask. induction view as [|x view IH]; intros [|b mask]; simpl; auto.
Qed.

Lemma nth_mask_set (view : list R) (mask : list bool) (v : R) (p : nat) :
  length mask = length view ->
  nth p (mask_set view mask v) 0
  = if nth p mask false then v else nth p view 0.
Proof.
  revert mask p.
  induction view as [|x view IH]; intros [|b mask] [|p] H; simpl in *;
    try discriminate; auto.
Qed.

Lemma length_slice (a : list R) (start stop : nat) :
  length (slice a start stop) = Nat.min (stop - start) (length a - start).
Proof. unfold slice. now rewrite length_firstn, length_skipn. Qed.

Lemma nth_slice (a : list R) (start stop p : nat) :
  (p < stop - start)%nat -> nth p (slice a start stop) 0 = nth (start + p) a 0.
Proof.
  intros Hp. unfold slice. rewrite nth_firstn.
  destruct (Nat.ltb_spec p (stop - start)); [|lia].
  apply nth_skipn.
Qed.

Lemma slice_decompose (a : list R) (start stop : nat) :
  (start <= stop)%nat ->
  a = firstn start a ++ slice a start stop ++ skipn stop a.
Proof.
  intros H. unfold slice.
  rewrite <- (firstn_skipn start a) at 1. f_equal.
  rewrite <- (firstn_skipn (stop - start) (skipn start a)) at 1. f_equal.
  rewrite skipn_skipn. f_equal. lia.
Qed.

Lemma In_slice (a : list R) (start stop : nat) (x : R) :
  In x (slice a start stop) -> In x a.
Proof.
  intros H. destruct (Nat.le_gt_cases start stop) as [Hle|Hgt].
  - rewrite (slice_decompose a start stop Hle).
    apply in_or_app. right. apply in_or_app. left. assumption.
  - unfold slice in H. replace (stop - start)%nat with O in H by lia.
    contradiction.
Qed.

Lemma length_slice_mask_set (a : list R) (start stop : nat) (mask : list bool) (v : R) :
  (start <= stop)%nat -> length (slice_mask_set a start stop mask v) = length a.
Proof.
  intros H. unfold slice_mask_set.
  rewrite (slice_decompose a start stop H) at 4.
  rewrite !length_app, length_mask_set. reflexivity.
Qed.

Lemma nth_app3 (A B B' C : list R) (p : nat) :
  length B' = length B ->
  nth p (A ++ B' ++ C) 0
  = if (length A <=? p)%nat && (p <? length A + length B)%nat
    then nth (p - length A) B' 0 else nth p (A ++ B ++ C) 0.
Proof.
  intros HB.
  destruct (Nat.leb_spec (length A) p) as [H1|H1]; cbn [andb].
  - rewrite !(app_nth2 A) by lia.
    destruct (Nat.ltb_spec p (length A + length B)) as [H2|H2].
    + apply app_nth1. lia.
    + rewrite !app_nth2 by lia. now rewrite HB.
  - now rewrite !(app_nth1 A) by lia.
Qed.

(** The entry at [p] after [a[start:stop][mask] = v], when the slice
    starts within the array and the mask has the length of the slice. *)
Lemma nth_slice_mask_set (a : list R) (start stop : nat) (mask : list bool)
  (v : R) (p : nat) :
  (start <= stop)%nat -> (start <= length a)%nat ->
  length mask = length (slice a start stop) ->
  nth p (slice_mask_set a start stop mask v) 0
  = if (start <=? p)%nat && (p <? stop)%nat && nth (p - start) mask false
    then v else nth p a 0.
Proof.
  intros H Hs Hm. unfold slice_mask_set.
  rewrite (nth_app3 (firstn start a) (slice a start stop))
    by apply length_mask_set.
  rewrite <- (slice_decompose a start stop H).
  rewrite length_firstn, Nat.min_l by assumption.
  destruct (Nat.leb_spec start p) as [H1|H1]; cbn [andb]; [|reflexivity].
  destruct (Nat.ltb_spec p (start + length (slice a start stop))) as [H2|H2].
  - rewrite length_slice in H2.
    destruct (Nat.ltb_spec p stop); [|lia]. cbn [andb].
    rewrite nth_mask_set by assumption.
    destruct (nth (p - start) mask false); [reflexivity|].
    rewrite nth_slice by lia. f_equal. lia.
  - destruct (Nat.ltb_spec p stop) as [H3|H3]; cbn [andb]; [|reflexivity].
    rewrite (nth_overflow mask) by lia. reflexivity.
Qed.

Lemma slice_mask_set_beyond (a : list R) (start stop : nat) (v : R) :
  (length a <= start)%nat -> (start <= stop)%nat ->
  slice_mask_set a start stop [] v = a.
Proof.
  intros H1 H2. unfold slice_mask_set, slice.
  rewrite firstn_all2, !skipn_all2 by lia.
  rewrite firstn_nil. cbn. apply app_nil_r.
Qed.

Lemma nth_map_default (f : R -> bool) (l : list R) (p : nat) :
  (p < length l)%nat -> nth p (map f l) false = f (nth p l 0).
Proof.
  intros H. rewrite (nth_indep _ false (f 0)) by (now rewrite length_map).
  apply map_nth.
Qed.

(** The windows of [interpolate_signal], [t] of them done. *)
Lemma interpolate_windows_done (signal : list R) (w : nat) (thr : R) (t : nat) :
  (0 < w)%nat ->
  let done :=
    fold_left (interpolate_window signal (Z.of_nat w) thr)
              (map (fun q => (0 + Z.of_nat q * Z.of_nat w)%Z) (seq 0 t)) signal in
  length done = length signal /\
  forall p, (p < length signal)%nat ->
    nth p done 0
    = if (p <? t * w)%nat then interpolated_sample signal w thr p
      else nth p signal 0.
Proof.
  intros Hw. induction t as [|t IH]; cbn zeta.
  - cbn. split; [reflexivity|]. intros p Hp. reflexivity.
  - rewrite seq_S, map_app, fold_left_app. cbn [map fold_left Nat.add].
    cbn zeta in IH. destruct IH as (Hlen & Hnth).
    set (done := fold_left _ _ signal) in *.
    unfold interpolate_window.
    replace (Z.to_nat (0 + Z.of_nat t * Z.of_nat w)) with (t * w)%nat by nia.
    replace (Z.to_nat (0 + Z.of_nat t * Z.of_nat w + Z.of_nat w))
      with (t * w + w)%nat by nia.
    set (window := slice signal (t * w) (t * w + w)).
    set (mu := np_mean window).
    destruct (Nat.le_gt_cases (length signal) (t * w)) as [Hout|Hin].
    + assert (Hnil : window = []).
      { apply length_zero_iff_nil. unfold window. rewrite length_slice. lia. }
      rewrite Hnil. cbn [map].
      rewrite slice_mask_set_beyond by lia.
      split; [assumption|]. intros p Hp. rewrite (Hnth p Hp).
      destruct (Nat.ltb_spec p (t * w)); [|lia].
      destruct (Nat.ltb_spec p (S t * w)); [reflexivity | lia].
    + split; [rewrite length_slice_mask_set by lia; assumption|].
      intros p Hp.
      rewrite nth_slice_mask_set;
        [| lia | lia
         | rewrite length_map; unfold window; rewrite !length_slice; lia].
      rewrite (Hnth p Hp).
      destruct (Nat.leb_spec (t * w) p) as [H1|H1]; cbn [andb].
      * destruct (Nat.ltb_spec p (t * w)); [lia|].
        destruct (Nat.ltb_spec p (t * w + w)) as [H2|H2]; cbn [andb].
        -- destruct (Nat.ltb_spec p (S t * w)); [|lia].
           assert (Hq : (p / w = t)%nat)
             by (symmetry; apply (Nat.div_unique p w t (p - t * w)); lia).
           unfold interpolated_sample. rewrite Hq. fold window. fold mu.
           rewrite nth_map_default
             by (unfold window; rewrite length_slice; lia).
           unfold window at 1. rewrite nth_slice by lia.
           replace (t * w + (p - t * w))%nat with p by lia.
           reflexivity.
        -- destruct (Nat.ltb_spec p (S t * w)); [lia | reflexivity].
      * destruct (Nat.ltb_spec p (t * w)); [|lia].
        destruct (Nat.ltb_spec p (S t * w)); [reflexivity | lia].
Qed.

Lemma windows_cover (len w : nat) :
  (0 < w)%nat ->
  (len <= Z.to_nat ((Z.of_nat len - 0 + Z.of_nat w - 1) / Z.of_nat w) * w)%nat.
Proof.
  intros Hw.
  set (x := (Z.of_nat len - 0 + Z.of_nat w - 1)%Z).
  pose proof (Z.div_mod x (Z.of_nat w) ltac:(lia)) as Hdm.
  pose proof (Z.mod_pos_bound x (Z.of_nat w) ltac:(lia)) as Hmod.
  assert (Hq : (0 <= x / Z.of_nat w)%Z) by (apply Z.div_pos; lia).
  apply Nat2Z.inj_le. rewrite Nat2Z.inj_mul, Z2Nat.id by assumption.
  nia.
Qed.

Lemma interpolate_signal_samples (signal : list R) (window_size : Z)
  (threshold_factor : R) :
  (0 < window_size)%Z ->
  exists out,
    interpolate_signal signal window_size threshold_factor = Ok out /\
    length out = length signal /\
    forall p, (p < length signal)%nat ->
      nth p out 0
      = interpolated_sample signal (Z.to_nat window_size)
          (threshold_factor * np_std signal) p.
Proof.
  intros Hw. unfold interpolate_signal, py_range.
  destruct (Z.eqb_spec window_size 0); [lia|].
  destruct (Z.ltb_spec 0 window_size); [|lia]. cbn [bind].
  eexists. split; [reflexivity|].
  set (w := Z.to_nat window_size).
  replace window_size with (Z.of_nat w) by lia.
  destruct (interpolate_windows_done signal w (threshold_factor * np_std signal)
              (Z.to_nat ((Z.of_nat (length signal) - 0 + Z.of_nat w - 1) / Z.of_nat w))
              ltac:(lia)) as (Hlen & Hnth).
  split; [exact Hlen|]. intros p Hp. rewrite (Hnth p Hp).
  pose proof (windows_cover (length signal) w ltac:(lia)).
  destruct (Nat.ltb_spec p (Z.to_nat ((Z.of_nat (length signal) - 0 + Z.of_nat w - 1)
                                      / Z.of_nat w) * w)); [reflexivity | lia].
Qed.

Lemma window_of_sample (signal : list R) (w p : nat) :
  (0 < w)%nat -> (p < length signal)%nat ->
  slice signal (p / w * w) (p / w * w + w) <> [] /\
  forall x, In x (slice signal (p / w * w) (p / w * w + w)) -> In x signal.
Proof.
  intros Hw Hp. split; [|intros x; apply In_slice].
  intros E. apply (f_equal (@length R)) in E. rewrite length_slice in E.
  pose proof (Nat.Div0.mul_div_le p w). cbn [length] in E. nia.
Qed.

(** X4.  With a positive window size [interpolate_signal] returns a
    signal of the same length in which the sample at [p] is the mean of
    the window that holds [p] when the sample lies farther from that mean
    than [threshold_factor] times the standard deviation of the whole
    signal, and the sample itself otherwise.  The windows are the
    consecutive runs of [window_size] samples, the last one possibly
    shorter. *)
Theorem interpolate_signal_replaces_outliers_by_window_mean
  (signal : list R) (window_size : Z) (threshold_factor : R) :
  (0 < window_size)%Z ->
  exists out,
    interpolate_signal signal window_size threshold_factor = Ok out /\
    length out = length signal /\
    forall p, (p < length signal)%nat ->
      let w := Z.to_nat window_size in
      let window := slice signal (p / w * w) (p / w * w + w) in
      nth p out 0
      = if Rgtb (Rabs (nth p signal 0 - np_mean window))
                (threshold_factor * np_std signal)
        then np_mean window else nth p signal 0.
Proof.
  intros Hw.
  destruct (interpolate_signal_samples signal window_size threshold_factor Hw)
    as (out & Hout & Hlen & Hnth).
  exists out. split; [assumption|]. split; [assumption|].
  intros p Hp. cbn zeta. rewrite (Hnth p Hp). reflexivity.
Qed.

Lemma interpolate_signal_replaces_outliers_by_window_mean_witness :
  (0 < 2)%Z /\
  exists out,
    interpolate_signal signal_0_2 2 3 = Ok out /\
    length out = length signal_0_2 /\
    forall p, (p < length signal_0_2)%nat ->
      let w := Z.to_nat 2 in
      let window := slice signal_0_2 (p / w * w) (p / w * w + w) in
      nth p out 0
      = if Rgtb (Rabs (nth p signal_0_2 0 - np_mean window)) (3 * np_std signal_0_2)
        then np_mean window else nth p signal_0_2 0.
Proof.
  split; [lia|].
  apply (interpolate_signal_replaces_outliers_by_window_mean signal_0_2 2 3). lia.
Defined.

(** X5.  A window size of 0 is a ValueError (the step of [range]); with a
    negative window size the loop has no iteration and the signal is
    returned as it is. *)
Theorem interpolate_signal_window_size_not_positive
  (signal : list R) (window_size : Z) (threshold_factor : R) :
  (window_size = 0%Z ->
   interpolate_signal signal window_size threshold_factor = Raise ValueError) /\
  ((window_size < 0)%Z ->
   interpolate_signal signal window_size threshold_factor = Ok signal).
Proof.
  unfold interpolate_signal, py_range. split.
  - intros ->. reflexivity.
  - intros Hw.
    destruct (Z.eqb_spec window_size 0); [lia|].
    destruct (Z.ltb_spec 0 window_size); [lia|]. cbn [bind].
    assert (Hq : ((0 - Z.of_nat (length signal) - window_size - 1) / - window_size < 1)%Z)
      by (apply Z.div_lt_upper_bound; lia).
    replace (Z.to_nat ((0 - Z.of_nat (length signal) - window_size - 1) / - window_size))
      with O by lia.
    reflexivity.
Qed.

Lemma interpolate_signal_window_size_not_positive_witness :
  (0 = 0)%Z /\ interpolate_signal signal_0_2 0 3 = Raise ValueError /\
  (-5 < 0)%Z /\ interpolate_signal signal_0_2 (-5) 3 = Ok signal_0_2.
Proof.
  split; [reflexivity|].
  split; [apply (proj1 (interpolate_signal_window_size_not_positive signal_0_2 0 3));
          reflexivity|].
  split; [lia|].
  apply (proj2 (interpolate_signal_window_size_not_positive signal_0_2 (-5) 3)). lia.
Defined.

(** X6.  Interpolation stays within the range of the signal: when every
    sample lies between [lo] and [hi], so does every sample of the
    result. *)
Theorem interpolate_signal_stays_in_range
  (signal : list R) (window_size : Z) (threshold_factor lo hi : R) :
  (0 < window_size)%Z ->
  (forall x, In x signal -> lo <= x <= hi) ->
  exists out,
    interpolate_signal signal window_size threshold_factor = Ok out /\
    forall y, In y out -> lo <= y <= hi.
Proof.
  intros Hw Hrange.
  destruct (interpolate_signal_samples signal window_size threshold_factor Hw)
    as (out & Hout & Hlen & Hnth).
  exists out. split; [assumption|]. intros y Hy.
  destruct (In_nth out y 0 Hy) as (p & Hp & <-). rewrite Hlen in Hp.
  rewrite (Hnth p Hp). unfold interpolated_sample.
  destruct (window_of_sample signal (Z.to_nat window_size) p ltac:(lia) Hp)
    as (Hne & Hin).
  destruct (Rgtb _ _).
  - apply np_mean_bounds; [assumption|]. intros x Hx. apply Hrange, Hin, Hx.
  - apply Hrange. apply nth_In. assumption.
Qed.

Lemma signal_0_2_range (x : R) : In x signal_0_2 -> 0 <= x <= 2.
Proof. intros [<-|[<-|[]]]; lra. Qed.

Lemma interpolate_signal_stays_in_range_witness :
  ((0 < 2)%Z /\ (forall x, In x signal_0_2 -> 0 <= x <= 2)) /\
  exists out,
    interpolate_signal signal_0_2 2 3 = Ok out /\
    forall y, In y out -> 0 <= y <= 2.
Proof.
  split; [split; [lia | exact signal_0_2_range]|].
  apply (interpolate_signal_stays_in_range signal_0_2 2 3 0 2);
    [lia | exact signal_0_2_range].
Defined.

(** X7.  A signal without outliers is returned unchanged: when no sample
    lies farther from the mean of its window than the threshold,
    [interpolate_signal] returns the signal. *)
Theorem interpolate_signal_without_outliers
  (signal : list R) (window_size : Z) (threshold_factor : R) :
  (0 < window_size)%Z ->
  (forall p, (p < length signal)%nat ->
     let w := Z.to_nat window_size in
     Rabs (nth p signal 0 - np_mean (slice signal (p / w * w) (p / w * w + w)))
     <= threshold_factor * np_std signal) ->
  interpolate_signal signal window_size threshold_factor = Ok signal.
Proof.
  intros Hw Hno.
  destruct (interpolate_signal_samples signal window_size threshold_factor Hw)
    as (out & Hout & Hlen & Hnth).
  rewrite Hout. f_equal. apply (nth_ext out signal 0 0 Hlen).
  intros p Hp. rewrite Hlen in Hp. rewrite (Hnth p Hp).
  unfold interpolated_sample. specialize (Hno p Hp). cbn zeta in Hno.
  destruct (Rgtb _ _) eqn:E; [|reflexivity].
  apply Rgtb_true in E. lra.
Qed.

Lemma signal_0_2_no_outlier (p : nat) :
  (p < length signal_0_2)%nat ->
  let w := Z.to_nat 2 in
  Rabs (nth p signal_0_2 0 - np_mean (slice signal_0_2 (p / w * w) (p / w * w + w)))
  <= 3 * np_std signal_0_2.
Proof.
  intros Hp. cbn zeta. rewrite np_std_signal_0_2.
  assert (Hm : np_mean signal_0_2 = 1)
    by (unfold np_mean, np_sum, signal_0_2; cbn [fold_right length INR]; field).
  destruct p as [|[|p]]; [| |cbn in Hp; lia].
  - change (slice signal_0_2 (0 / Z.to_nat 2 * Z.to_nat 2)
              (0 / Z.to_nat 2 * Z.to_nat 2 + Z.to_nat 2)) with signal_0_2.
    rewrite Hm. cbn [nth signal_0_2].
    replace (0 - 1) with (- (1)) by ring. rewrite Rabs_Ropp, Rabs_R1. lra.
  - change (slice signal_0_2 (1 / Z.to_nat 2 * Z.to_nat 2)
              (1 / Z.to_nat 2 * Z.to_nat 2 + Z.to_nat 2)) with signal_0_2.
    rewrite Hm. cbn [nth signal_0_2].
    replace (2 - 1) with 1 by ring. rewrite Rabs_R1. lra.
Qed.

Lemma interpolate_signal_without_outliers_witness :
  ((0 < 2)%Z /\
   (forall p, (p < length signal_0_2)%nat ->
      let w := Z.to_nat 2 in
      Rabs (nth p signal_0_2 0
            - np_mean (slice signal_0_2 (p / w * w) (p / w * w + w)))
      <= 3 * np_std signal_0_2)) /\
  interpolate_signal signal_0_2 2 3 = Ok signal_0_2.
Proof.
  split; [split; [lia | exact signal_0_2_no_outlier]|].
  apply (interpolate_signal_without_outliers signal_0_2 2 3);
    [lia | exact signal_0_2_no_outlier].
Defined.

(** * More on the EM engine *)

(** ** More on sums *)

Lemma sum_upto_le (n : nat) (f g : nat -> R) :
  (forall i, (i < n)%nat -> f i <= g i) -> sum_upto n f <= sum_upto n g.
Proof.
  induction n as [|n IH]; intros H; simpl; [lra|].
  assert (sum_upto n f <= sum_upto n g) by (apply IH; intros; apply H; lia).
  specialize (H n ltac:(lia)). lra.
Qed.

Lemma sum_upto_scal_l (n : nat) (f : nat -> R) (a : R) :
  sum_upto n (fun j => a * f j) = a * sum_upto n f.
Proof. induction n as [|n IH]; simpl; [ring | rewrite IH; ring]. Qed.

Lemma sum_upto_plus (n : nat) (f g : nat -> R) :
  sum_upto n (fun j => f j + g j) = sum_upto n f + sum_upto n g.
Proof. induction n as [|n IH]; simpl; [ring | rewrite IH; ring]. Qed.

Lemma sum_upto_const (n : nat) (a : R) : sum_upto n (fun _ => a) = INR n * a.
Proof.
  induction n as [|n IH]; [simpl; ring|].
  rewrite S_INR. cbn [sum_upto]. rewrite IH. ring.
Qed.

Lemma sum_upto_swap (k n : nat) (f : nat -> nat -> R) :
  sum_upto k (fun c => sum_upto n (fun i => f c i))
  = sum_upto n (fun i => sum_upto k (fun c => f c i)).
Proof.
  induction k as [|k IH]; cbn [sum_upto].
  - rewrite sum_upto_const. ring.
  - rewrite IH. symmetry. apply sum_upto_plus.
Qed.

(** ** The start probabilities and the transition matrix *)

Lemma softmax_row_pos (k : nat) (u : nat -> R) (c : nat) :
  (c < k)%nat ->
  0 < Rtrigo_def.exp (u c) / sum_upto k (fun j => Rtrigo_def.exp (u j)).
Proof.
  intros Hc. apply Rdiv_lt_0_compat; [apply exp_pos|].
  apply sum_upto_pos; [lia | intros; apply exp_pos].
Qed.

Lemma softmax_row_sum (k : nat) (u : nat -> R) :
  (1 <= k)%nat ->
  sum_upto k (fun c => Rtrigo_def.exp (u c)
                       / sum_upto k (fun j => Rtrigo_def.exp (u j))) = 1.
Proof.
  intros Hk. unfold Rdiv. rewrite sum_upto_scal_r. field.
  apply Rgt_not_eq, sum_upto_pos; [assumption | intros; apply exp_pos].
Qed.

Lemma initial_startprob_pos (g : Generator) (k comp : nat) :
  (comp < k)%nat -> 0 < get (initial_startprob g k) [comp].
Proof.
  intros Hc.
  apply (softmax_row_pos k (fun j => uniform_tape g (S (S (op_counter g))) [j]) comp Hc).
Qed.

(** X11.  After [fit] with at least one component the start probabilities
    are a probability vector and every row of the transition matrix is
    one: the entries are positive and their sum is 1. *)
Theorem fit_normalizes_startprob_and_transmat
  (g : Generator) (self : TFHMM.t) (X : Tensor) (n d : nat) :
  shape X = [n; d] -> (1 <= n_components self)%Z ->
  let k := Z.to_nat (n_components self) in
  exists s g' p T,
    fit g self X = Ok (s, g') /\
    startprob_ s = Some p /\ shape p = [k] /\
    transmat_ s = Some T /\ shape T = [k; k] /\
    (forall c, (c < k)%nat -> 0 < get p [c]) /\
    sum_upto k (fun c => get p [c]) = 1 /\
    (forall a b, (a < k)%nat -> (b < k)%nat -> 0 < get T [a; b]) /\
    (forall a, (a < k)%nat -> sum_upto k (fun b => get T [a; b]) = 1).
Proof.
  intros HX Hk k.
  destruct (fit_returns g self X n d HX ltac:(lia))
    as (s & m & c & Hfit & _ & (_ & _ & Hp & _) & _ & _ & Htr).
  exists s, (advance (advance (advance g))), (initial_startprob g k),
         (initial_transmat g k).
  repeat (split; [assumption || reflexivity|]).
  split; [intros c' Hc'; now apply initial_startprob_pos|].
  split.
  { apply (softmax_row_sum k (fun j => uniform_tape g (S (S (op_counter g))) [j])).
    subst k. lia. }
  split.
  - intros a b Ha Hb.
    apply (softmax_row_pos k (fun j => uniform_tape g (S (op_counter g)) [a; j]) b Hb).
  - intros a Ha.
    apply (softmax_row_sum k (fun j => uniform_tape g (S (op_counter g)) [a; j])).
    subst k. lia.
Qed.

(** ** The responsibilities *)

Lemma normalized_shift_free (k : nat) (a : nat -> R) (shift : R) (c : nat) :
  (1 <= k)%nat ->
  Rtrigo_def.exp
    (a c - (ln (sum_upto k (fun c' => Rtrigo_def.exp (a c' - shift))) + shift))
  = Rtrigo_def.exp (a c) / sum_upto k (fun c' => Rtrigo_def.exp (a c')).
Proof.
  intros Hk. rewrite (exp_minus_lse k a shift Hk).
  rewrite (sum_upto_ext k _ (fun c' => Rtrigo_def.exp (a c') * Rtrigo_def.exp (- shift)))
    by (intros c' _; unfold Rminus; apply exp_plus).
  rewrite sum_upto_scal_r. unfold Rminus at 1. rewrite exp_plus.
  assert (0 < sum_upto k (fun c' => Rtrigo_def.exp (a c')))
    by (apply sum_upto_pos; [assumption | intros; apply exp_pos]).
  pose proof (exp_pos (- shift)). field. split; lra.
Qed.

(** ** predict *)

Lemma gaussian_log_density_equal_variances
  (m c : Tensor) (k d comp : nat) (x : nat -> R) (v : R) :
  (comp < k)%nat ->
  (forall comp' j, (comp' < k)%nat -> (j < d)%nat -> get c [comp'; j] = v) ->
  gaussian_log_density m c d comp x
  = -0.5 * (sum_upto d (fun j => (x j - get m [comp; j]) ^ 2) / v)
    - 0.5 * sum_upto d (fun _ => ln (2 * PI * v)).
Proof.
  intros Hcomp Hv. unfold gaussian_log_density. f_equal; f_equal.
  - unfold Rdiv at 2. rewrite <- sum_upto_scal_r. apply sum_upto_ext.
    intros j Hj. now rewrite (Hv comp j Hcomp Hj).
  - apply sum_upto_ext. intros j Hj. now rewrite (Hv comp j Hcomp Hj).
Qed.

(** X15.  When all the variances are one positive number (as they are
    before the first iteration), [predict] labels each sample with the
    component whose mean is nearest: no component has a smaller squared
    distance to the sample. *)
Theorem predict_with_equal_variances_is_nearest_mean
  (self : TFHMM.t) (X m c : Tensor) (k d n : nat) (v : R) :
  means_ self = Some m -> covars_ self = Some c ->
  shape m = [k; d] -> shape c = [k; d] -> shape X = [n; d] -> (1 <= k)%nat ->
  0 < v ->
  (forall comp j, (comp < k)%nat -> (j < d)%nat -> get c [comp; j] = v) ->
  exists labels,
    predict self X = Ok labels /\ length labels = n /\
    forall i, (i < n)%nat ->
      (nth i labels O < k)%nat /\
      forall comp, (comp < k)%nat ->
        sum_upto d (fun j => (get X [i; j] - get m [nth i labels O; j]) ^ 2)
        <= sum_upto d (fun j => (get X [i; j] - get m [comp; j]) ^ 2).
Proof.
  intros Hm Hc Hsm Hsc HX Hk Hv Hc_eq.
  exists (map (fun i => sample_label m c k d (row X i)) (seq 0 n)).
  split; [now apply predict_labels|].
  split; [now rewrite length_map, length_seq|].
  intros i Hi. rewrite nth_map_seq by assumption.
  destruct (argmax_upto_first k
              (fun comp => gaussian_log_density m c d comp (row X i)) Hk)
    as (Hl & Hmax & _).
  fold (sample_label m c k d (row X i)) in Hl, Hmax.
  split; [assumption|]. intros comp Hcomp.
  specialize (Hmax comp Hcomp). cbn beta in Hmax.
  rewrite (gaussian_log_density_equal_variances m c k d comp (row X i) v Hcomp Hc_eq),
          (gaussian_log_density_equal_variances m c k d _ (row X i) v Hl Hc_eq)
    in Hmax.
  unfold row in Hmax.
  set (Dl := sum_upto d (fun j => (get X [i; j] - get m [sample_label m c k d
                                      (fun j0 => get X [i; j0]); j]) ^ 2)) in *.
  set (Dc := sum_upto d (fun j => (get X [i; j] - get m [comp; j]) ^ 2)) in *.
  assert (Hq : Dl / v <= Dc / v) by lra.
  unfold Rdiv in Hq. apply Rmult_le_reg_r in Hq; [exact Hq|].
  now apply Rinv_0_lt_compat.
Qed.

(** X16.  [predict] and [_compute_log_likelihood] on an object that was
    never fitted raise a TypeError (the means are still [None]), for
    every input of two or more dimensions. *)
Theorem predict_before_fit_is_a_type_error
  (k iters : Z) (X : Tensor) :
  (2 <= rank X)%nat ->
  exists model,
    __init__ k iters = Ok model /\
    _compute_log_likelihood model X = Raise TypeError /\
    predict model X = Raise TypeError.
Proof.
  intros HX. eexists. split; [reflexivity|].
  assert (E : _compute_log_likelihood (mk k iters None None None None) X
              = Raise TypeError).
  { unfold _compute_log_likelihood, newaxis_at.
    destruct (Nat.ltb_spec (rank X) 2); [lia|]. reflexivity. }
  split; [exact E|]. unfold predict. now rewrite E.
Qed.

(** X17.  [fit] with a number of iterations that is not positive runs no
    iteration: it returns the initial parameters, the drawn means and
    variances that are all 1. *)
Theorem fit_without_iterations
  (g : Generator) (self : TFHMM.t) (X : Tensor) (n d : nat) :
  shape X = [n; d] -> (0 <= n_components self)%Z -> (n_iter self <= 0)%Z ->
  exists s g' m c,
    fit g self X = Ok (s, g') /\ means_ s = Some m /\ covars_ s = Some c /\
    shape m = [Z.to_nat (n_components self); d] /\
    shape c = [Z.to_nat (n_components self); d] /\
    (forall idx, get m idx = normal_tape g (op_counter g) idx) /\
    (forall idx, get c idx = 1).
Proof.
  intros HX Hk Hit.
  exists (initial_state g self d), (advance (advance (advance g))),
         (initial_means g (Z.to_nat (n_components self)) d),
         (ones [Z.to_nat (n_components self); d]).
  split.
  - unfold fit. rewrite (fit_init_eq g self X n d HX Hk). cbn [bind].
    change (n_iter (initial_state g self d)) with (n_iter self).
    replace (Z.to_nat (n_iter self)) with O by lia. reflexivity.
  - repeat split; reflexivity.
Qed.

(** ** apply_gpu_hmm *)

(** X18.  [apply_gpu_hmm] with at least one state returns one label per
    sample of the signal, each below the number of states; with one
    state every label is 0. *)
Theorem apply_gpu_hmm_labels
  (g : Generator) (signal : list R) (n_states : Z) :
  (1 <= n_states)%Z ->
  exists hidden_states,
    apply_gpu_hmm g signal n_states = Ok hidden_states /\
    length hidden_states = length signal /\
    Forall (fun l => (Z.of_nat l < n_states)%Z) hidden_states /\
    (n_states = 1%Z -> hidden_states = repeat O (length signal)).
Proof.
  intros Hk. unfold apply_gpu_hmm, __init__. cbn [bind].
  set (X := of_rows 1 (map (fun x => [x]) signal)).
  assert (HX : shape X = [length signal; 1%nat])
    by (unfold X, of_rows; cbn [shape]; now rewrite length_map).
  destruct (fit_returns g (mk n_states 100 None None None None) X
              (length signal) 1 HX ltac:(cbn; lia))
    as (s & m & c & Hfit & _ & (Hm & Hc & _ & Hsm & Hsc & _) & _).
  rewrite Hfit. cbn [bind n_components] in *.
  rewrite (predict_labels s X m c (Z.to_nat n_states) 1 (length signal))
    by (assumption || lia).
  eexists. split; [reflexivity|].
  split; [now rewrite length_map, length_seq|]. split.
  - apply Forall_forall. intros l Hl. apply in_map_iff in Hl.
    destruct Hl as (i & <- & _).
    destruct (argmax_upto_first (Z.to_nat n_states)
                (fun comp => gaussian_log_density m c 1 comp (row X i))
                ltac:(lia)) as (Hlt & _).
    unfold sample_label. lia.
  - intros ->. change (Z.to_nat 1) with 1%nat.
    generalize (length signal). intros len.
    assert (E : forall start,
              map (fun i => sample_label m c 1 1 (row X i)) (seq start len)
              = repeat O len).
    { induction len as [|len IH]; intros start; [reflexivity|].
      cbn [seq map repeat]. rewrite IH. f_equal.
      unfold sample_label. apply argmax_upto_one. }
    apply E.
Qed.

(** ** Instances of the further theorems *)

Lemma fit_normalizes_startprob_and_transmat_witness :
  (shape two_samples = [2%nat; 1%nat] /\
   (1 <= n_components new_model_two_components)%Z) /\
  exists s g' p T,
    fit generator_5 new_model_two_components two_samples = Ok (s, g') /\
    startprob_ s = Some p /\ shape p = [2%nat] /\
    transmat_ s = Some T /\ shape T = [2%nat; 2%nat] /\
    (forall c, (c < 2)%nat -> 0 < get p [c]) /\
    sum_upto 2 (fun c => get p [c]) = 1 /\
    (forall a b, (a < 2)%nat -> (b < 2)%nat -> 0 < get T [a; b]) /\
    (forall a, (a < 2)%nat -> sum_upto 2 (fun b => get T [a; b]) = 1).
Proof.
  split; [split; [reflexivity | cbn; lia]|].
  apply (fit_normalizes_startprob_and_transmat generator_5
           new_model_two_components two_samples 2 1); [reflexivity | cbn; lia].
Defined.

Lemma unit_variances_equal (comp j : nat) :
  (comp < 2)%nat -> (j < 1)%nat -> get (of_rows 1 [[1]; [1]]) [comp; j] = 1.
Proof.
  intros Hc Hj. destruct comp as [|[|comp]]; [| |lia];
    (destruct j as [|j]; [reflexivity | lia]).
Defined.

Lemma predict_with_equal_variances_is_nearest_mean_witness :
  (means_ two_components = Some (of_rows 1 [[0]; [1]]) /\
   covars_ two_components = Some (of_rows 1 [[1]; [1]]) /\
   shape (of_rows 1 [[0]; [1]]) = [2%nat; 1%nat] /\
   shape (of_rows 1 [[1]; [1]]) = [2%nat; 1%nat] /\
   shape one_sample = [1%nat; 1%nat] /\ (1 <= 2)%nat /\ 0 < 1 /\
   (forall comp j, (comp < 2)%nat -> (j < 1)%nat ->
      get (of_rows 1 [[1]; [1]]) [comp; j] = 1)) /\
  exists labels,
    predict two_components one_sample = Ok labels /\ length labels = 1%nat /\
    forall i, (i < 1)%nat ->
      (nth i labels O < 2)%nat /\
      forall comp, (comp < 2)%nat ->
        sum_upto 1 (fun j => (get one_sample [i; j]
                              - get (of_rows 1 [[0]; [1]]) [nth i labels O; j]) ^ 2)
        <= sum_upto 1 (fun j => (get one_sample [i; j]
                                 - get (of_rows 1 [[0]; [1]]) [comp; j]) ^ 2).
Proof.
  split.
  - repeat (split; [reflexivity || lia || lra|]). exact unit_variances_equal.
  - apply (predict_with_equal_variances_is_nearest_mean two_components one_sample
             (of_rows 1 [[0]; [1]]) (of_rows 1 [[1]; [1]]) 2 1 1 1);
      try reflexivity; [lia | lra | exact unit_variances_equal].
Defined.

Lemma predict_before_fit_is_a_type_error_witness :
  (2 <= rank one_sample)%nat /\
  exists model,
    __init__ 5 100 = Ok model /\
    _compute_log_likelihood model one_sample = Raise TypeError /\
    predict model one_sample = Raise TypeError.
Proof.
  split; [cbn; lia|].
  apply (predict_before_fit_is_a_type_error 5 100 one_sample). cbn; lia.
Defined.

Lemma fit_without_iterations_witness :
  (shape two_samples = [2%nat; 1%nat] /\
   (0 <= n_components model_without_iterations)%Z /\
   (n_iter model_without_iterations <= 0)%Z) /\
  exists s g' m c,
    fit generator_5 model_without_iterations two_samples = Ok (s, g') /\
    means_ s = Some m /\ covars_ s = Some c /\
    shape m = [2%nat; 1%nat] /\ shape c = [2%nat; 1%nat] /\
    (forall idx, get m idx = normal_tape generator_5 (op_counter generator_5) idx) /\
    (forall idx, get c idx = 1).
Proof.
  split; [split; [reflexivity | cbn; lia]|].
  apply (fit_without_iterations generator_5 model_without_iterations
           two_samples 2 1); [reflexivity | cbn; lia | cbn; lia].
Defined.

Lemma apply_gpu_hmm_labels_witness :
  (1 <= 2)%Z /\
  exists hidden_states,
    apply_gpu_hmm generator_5 signal_0_2 2 = Ok hidden_states /\
    length hidden_states = length signal_0_2 /\
    Forall (fun l => (Z.of_nat l < 2)%Z) hidden_states /\
    (2%Z = 1%Z -> hidden_states = repeat O (length signal_0_2)).
Proof.
  split; [lia|].
  apply (apply_gpu_hmm_labels generator_5 signal_0_2 2). lia.
Defined.

(** * The E-step and the M-step, one at a time *)

(** ** Weighted averages *)

(** A quotient [sum_i r_i * x_i / sum_i r_i] with weights that are not
    negative and have a positive sum lies between any two bounds of the
    [x_i]. *)
Lemma weighted_average_bounds (n : nat) (r x : nat -> R) (lo hi : R) :
  (forall i, (i < n)%nat -> 0 <= r i) -> 0 < sum_upto n r ->
  (forall i, (i < n)%nat -> lo <= x i <= hi) ->
  lo <= sum_upto n (fun i => r i * x i) / sum_upto n r <= hi.
Proof.
  intros Hr Hpos Hx.
  assert (H1 : lo * sum_upto n r <= sum_upto n (fun i => r i * x i)).
  { rewrite <- sum_upto_scal_l. apply sum_upto_le. intros i Hi.
    specialize (Hr i Hi). specialize (Hx i Hi). nra. }
  assert (H2 : sum_upto n (fun i => r i * x i) <= hi * sum_upto n r).
  { rewrite <- sum_upto_scal_l. apply sum_upto_le. intros i Hi.
    specialize (Hr i Hi). specialize (Hx i Hi). nra. }
  split.
  - apply Rmult_le_reg_r with (sum_upto n r); [assumption|].
    unfold Rdiv. rewrite Rmult_assoc, Rinv_l by lra. lra.
  - apply Rmult_le_reg_r with (sum_upto n r); [assumption|].
    unfold Rdiv. rewrite Rmult_assoc, Rinv_l by lra. lra.
Qed.

(** A weighted average of squared deviations is positive when two values
    of positive weight differ. *)
Lemma weighted_square_deviation_pos (n : nat) (r x : nat -> R) (mu : R) :
  (forall i, (i < n)%nat -> 0 <= r i) ->
  (exists i i', (i < n)%nat /\ (i' < n)%nat /\
                0 < r i /\ 0 < r i' /\ x i <> x i') ->
  0 < sum_upto n (fun i => r i * (x i - mu) ^ 2) / sum_upto n r.
Proof.
  intros Hr (i & i' & Hi & Hi' & Hri & Hri' & Hne).
  assert (Hsum : 0 < sum_upto n r).
  { apply Rlt_le_trans with (r i); [assumption|].
    apply (sum_upto_term_le n r i Hr Hi). }
  apply Rdiv_lt_0_compat; [|assumption].
  assert (Hnn : forall a, (a < n)%nat -> 0 <= r a * (x a - mu) ^ 2).
  { intros a Ha. apply Rmult_le_pos; [now apply Hr | apply pow2_ge_0]. }
  assert (Hone : exists a, (a < n)%nat /\ 0 < r a /\ x a <> mu).
  { destruct (Req_dec (x i) mu) as [E|E]; [|now exists i].
    exists i'. repeat split; try assumption. congruence. }
  destruct Hone as (a & Ha & Hra & Hxa).
  apply Rlt_le_trans with (r a * (x a - mu) ^ 2).
  - apply Rmult_lt_0_compat; [assumption|].
    assert (x a - mu <> 0) by lra. nra.
  - apply (sum_upto_term_le n (fun b => r b * (x b - mu) ^ 2) a Hnn Ha).
Qed.

(** ** The M-step on any responsibilities *)

(** The parameters after the M-step of a component whose responsibilities
    are not negative and have a positive sum: weighted averages of the
    samples and of their squared deviations. *)
Lemma m_step_parameter_bounds
  (self : TFHMM.t) (X resp m c p : Tensor) (k d n : nat) :
  shaped self k d m c p -> shape X = [n; d] -> shape resp = [k; n] ->
  exists self' m' c',
    m_step self X resp = Ok self' /\
    means_ self' = Some m' /\ covars_ self' = Some c' /\
    shape m' = [k; d] /\ shape c' = [k; d] /\
    forall comp j lo hi,
      (comp < k)%nat -> (j < d)%nat ->
      (forall i, (i < n)%nat -> 0 <= get resp [comp; i]) ->
      0 < sum_upto n (fun i => get resp [comp; i]) ->
      (forall i, (i < n)%nat -> lo <= get X [i; j] <= hi) ->
      lo <= get m' [comp; j] <= hi /\
      0 <= get c' [comp; j] <= (hi - lo) ^ 2.
Proof.
  intros Hs HX Hr.
  destruct (m_step_entries self X resp m c p k d n Hs HX Hr)
    as (self' & m' & c' & Hm & Hs' & _ & _ & _ & Hf).
  destruct Hs' as (Hm' & Hc' & _ & Hsm' & Hsc' & _).
  exists self', m', c'. repeat (split; [assumption|]).
  intros comp j lo hi Hcomp Hj Hnn Hpos Hx.
  destruct (Hf comp j Hcomp Hj) as (Em & Ec). unfold occupancy in Em, Ec.
  assert (Bm : lo <= get m' [comp; j] <= hi).
  { rewrite Em.
    apply (weighted_average_bounds n (fun i => get resp [comp; i])
             (fun i => get X [i; j])); assumption. }
  split; [assumption|]. rewrite Ec.
  apply (weighted_average_bounds n (fun i => get resp [comp; i])
           (fun i => (get X [i; j] - get m' [comp; j]) ^ 2)); try assumption.
  intros i Hi. specialize (Hx i Hi). split; [apply pow2_ge_0 | nra].
Qed.

(** X8.  The M-step makes every mean a weighted average of the samples:
    for a component whose responsibilities are not negative and have a
    positive sum, the new mean lies within the range of the data, between
    any two bounds of the samples in the same feature. *)
Theorem m_step_means_lie_within_the_data
  (self : TFHMM.t) (X resp m c p : Tensor) (k d n : nat) :
  shaped self k d m c p -> shape X = [n; d] -> shape resp = [k; n] ->
  exists self' m',
    m_step self X resp = Ok self' /\ means_ self' = Some m' /\
    shape m' = [k; d] /\
    forall comp j lo hi,
      (comp < k)%nat -> (j < d)%nat ->
      (forall i, (i < n)%nat -> 0 <= get resp [comp; i]) ->
      0 < sum_upto n (fun i => get resp [comp; i]) ->
      (forall i, (i < n)%nat -> lo <= get X [i; j] <= hi) ->
      lo <= get m' [comp; j] <= hi.
Proof.
  intros Hs HX Hr.
  destruct (m_step_parameter_bounds self X resp m c p k d n Hs HX Hr)
    as (self' & m' & c' & Hm & Hm' & _ & Hsm' & _ & Hb).
  exists self', m'. repeat (split; [assumption|]).
  intros comp j lo hi Hcomp Hj Hnn Hpos Hx.
  now apply (Hb comp j lo hi).
Qed.

Lemma m_step_means_lie_within_the_data_witness :
  (shaped two_components 2 1 (of_rows 1 [[0]; [1]]) (of_rows 1 [[1]; [1]])
          (of_list [1 / 10; 9 / 10]) /\
   shape two_samples = [2%nat; 1%nat] /\ shape even_resp = [2%nat; 2%nat]) /\
  exists self' m',
    m_step two_components two_samples even_resp = Ok self' /\
    means_ self' = Some m' /\ shape m' = [2%nat; 1%nat] /\
    forall comp j lo hi,
      (comp < 2)%nat -> (j < 1)%nat ->
      (forall i, (i < 2)%nat -> 0 <= get even_resp [comp; i]) ->
      0 < sum_upto 2 (fun i => get even_resp [comp; i]) ->
      (forall i, (i < 2)%nat -> lo <= get two_samples [i; j] <= hi) ->
      lo <= get m' [comp; j] <= hi.
Proof.
  split; [split; [exact two_components_shaped | split; reflexivity]|].
  apply (m_step_means_lie_within_the_data two_components two_samples even_resp
           (of_rows 1 [[0]; [1]]) (of_rows 1 [[1]; [1]]) (of_list [1 / 10; 9 / 10])
           2 1 2); [exact two_components_shaped | reflexivity | reflexivity].
Defined.

(** X9.  The M-step makes every variance a weighted average of squared
    deviations: for a component whose responsibilities are not negative
    and have a positive sum, the new variance is at least 0 and at most
    the square of the width of the data in its feature. *)
Theorem m_step_variances_are_bounded_by_the_data
  (self : TFHMM.t) (X resp m c p : Tensor) (k d n : nat) :
  shaped self k d m c p -> shape X = [n; d] -> shape resp = [k; n] ->
  exists self' c',
    m_step self X resp = Ok self' /\ covars_ self' = Some c' /\
    shape c' = [k; d] /\
    forall comp j lo hi,
      (comp < k)%nat -> (j < d)%nat ->
      (forall i, (i < n)%nat -> 0 <= get resp [comp; i]) ->
      0 < sum_upto n (fun i => get resp [comp; i]) ->
      (forall i, (i < n)%nat -> lo <= get X [i; j] <= hi) ->
      0 <= get c' [comp; j] <= (hi - lo) ^ 2.
Proof.
  intros Hs HX Hr.
  destruct (m_step_parameter_bounds self X resp m c p k d n Hs HX Hr)
    as (self' & m' & c' & Hm & _ & Hc' & _ & Hsc' & Hb).
  exists self', c'. repeat (split; [assumption|]).
  intros comp j lo hi Hcomp Hj Hnn Hpos Hx.
  now apply (Hb comp j lo hi).
Qed.

Lemma m_step_variances_are_bounded_by_the_data_witness :
  (shaped two_components 2 1 (of_rows 1 [[0]; [1]]) (of_rows 1 [[1]; [1]])
          (of_list [1 / 10; 9 / 10]) /\
   shape two_samples = [2%nat; 1%nat] /\ shape even_resp = [2%nat; 2%nat]) /\
  exists self' c',
    m_step two_components two_samples even_resp = Ok self' /\
    covars_ self' = Some c' /\ shape c' = [2%nat; 1%nat] /\
    forall comp j lo hi,
      (comp < 2)%nat -> (j < 1)%nat ->
      (forall i, (i < 2)%nat -> 0 <= get even_resp [comp; i]) ->
      0 < sum_upto 2 (fun i => get even_resp [comp; i]) ->
      (forall i, (i < 2)%nat -> lo <= get two_samples [i; j] <= hi) ->
      0 <= get c' [comp; j] <= (hi - lo) ^ 2.
Proof.
  split; [split; [exact two_components_shaped | split; reflexivity]|].
  apply (m_step_variances_are_bounded_by_the_data two_components two_samples
           even_resp (of_rows 1 [[0]; [1]]) (of_rows 1 [[1]; [1]])
           (of_list [1 / 10; 9 / 10]) 2 1 2);
    [exact two_components_shaped | reflexivity | reflexivity].
Defined.



(** X19.  The M-step leaves a positive variance exactly where the data
    the component answers for is spread: when the responsibilities of a
    component are not negative and two samples of positive responsibility
    differ in a feature, the new variance of the component in that
    feature is positive (so a variance of 0 needs all the samples of
    positive responsibility to agree). *)
Theorem m_step_variance_is_positive_on_spread_data
  (self : TFHMM.t) (X resp m c p : Tensor) (k d n : nat) :
  shaped self k d m c p -> shape X = [n; d] -> shape resp = [k; n] ->
  exists self' c',
    m_step self X resp = Ok self' /\ covars_ self' = Some c' /\
    forall comp j i i',
      (comp < k)%nat -> (j < d)%nat -> (i < n)%nat -> (i' < n)%nat ->
      (forall a, (a < n)%nat -> 0 <= get resp [comp; a]) ->
      0 < get resp [comp; i] -> 0 < get resp [comp; i'] ->
      get X [i; j] <> get X [i'; j] ->
      0 < get c' [comp; j].
Proof.
  intros Hs HX Hr.
  destruct (m_step_entries self X resp m c p k d n Hs HX Hr)
    as (self' & m' & c' & Hm & Hs' & _ & _ & _ & Hf).
  destruct Hs' as (_ & Hc' & _).
  exists self', c'. repeat (split; [assumption|]).
  intros comp j i i' Hcomp Hj Hi Hi' Hnn Hri Hri' Hne.
  destruct (Hf comp j Hcomp Hj) as (_ & Ec). rewrite Ec. unfold occupancy.
  apply (weighted_square_deviation_pos n (fun a => get resp [comp; a])
           (fun a => get X [a; j]) (get m' [comp; j]) Hnn).
  exists i, i'. repeat (split; [assumption|]). assumption.
Qed.

Lemma m_step_variance_is_positive_on_spread_data_witness :
  (shaped two_components 2 1 (of_rows 1 [[0]; [1]]) (of_rows 1 [[1]; [1]])
          (of_list [1 / 10; 9 / 10]) /\
   shape two_samples = [2%nat; 1%nat] /\ shape even_resp = [2%nat; 2%nat]) /\
  exists self' c',
    m_step two_components two_samples even_resp = Ok self' /\
    covars_ self' = Some c' /\
    forall comp j i i',
      (comp < 2)%nat -> (j < 1)%nat -> (i < 2)%nat -> (i' < 2)%nat ->
      (forall a, (a < 2)%nat -> 0 <= get even_resp [comp; a]) ->
      0 < get even_resp [comp; i] -> 0 < get even_resp [comp; i'] ->
      get two_samples [i; j] <> get two_samples [i'; j] ->
      0 < get c' [comp; j].
Proof.
  split; [split; [exact two_components_shaped | split; reflexivity]|].
  apply (m_step_variance_is_positive_on_spread_data two_components two_samples
           even_resp (of_rows 1 [[0]; [1]]) (of_rows 1 [[1]; [1]])
           (of_list [1 / 10; 9 / 10]) 2 1 2);
    [exact two_components_shaped | reflexivity | reflexivity].
Defined.

(** ** The E-step from a state with positive variances *)

Lemma exp_sum_upto (n : nat) (f : nat -> R) :
  Rtrigo_def.exp (sum_upto n f) = prod_upto n (fun j => Rtrigo_def.exp (f j)).
Proof.
  induction n as [|n IH]; cbn [sum_upto prod_upto]; [apply exp_0|].
  now rewrite exp_plus, IH.
Qed.

Lemma prod_upto_ext (n : nat) (f g : nat -> R) :
  (forall j, (j < n)%nat -> f j = g j) -> prod_upto n f = prod_upto n g.
Proof.
  induction n as [|n IH]; intros H; cbn [prod_upto]; [reflexivity|].
  rewrite IH, H; auto.
Qed.

Lemma exp_minus_half_ln (b : R) :
  0 < b -> Rtrigo_def.exp (- (0.5 * ln b)) = / sqrt b.
Proof.
  intros Hb. rewrite exp_Ropp. f_equal.
  rewrite <- (Rpower_sqrt b Hb). unfold Rpower. f_equal. lra.
Qed.

(** The exponential of the log-density is the density, when the variances
    of the component are positive. *)
Lemma exp_gaussian_log_density (m c : Tensor) (d comp : nat) (x : nat -> R) :
  (forall j, (j < d)%nat -> 0 < get c [comp; j]) ->
  Rtrigo_def.exp (gaussian_log_density m c d comp x) = gaussian_density m c d comp x.
Proof.
  intros Hc. unfold gaussian_log_density, gaussian_density.
  replace (-0.5 * sum_upto d (fun j => (x j - get m [comp; j]) ^ 2 / get c [comp; j])
           - 0.5 * sum_upto d (fun j => ln (2 * PI * get c [comp; j])))
    with (sum_upto d (fun j => - (x j - get m [comp; j]) ^ 2 / (2 * get c [comp; j])
                               + - (0.5 * ln (2 * PI * get c [comp; j])))).
  - rewrite exp_sum_upto. apply prod_upto_ext. intros j Hj.
    specialize (Hc j Hj). pose proof PI_RGT_0.
    rewrite exp_plus, exp_minus_half_ln by nra. reflexivity.
  - rewrite sum_upto_plus.
    rewrite (sum_upto_ext d (fun j => - (0.5 * ln (2 * PI * get c [comp; j])))
               (fun j => -0.5 * ln (2 * PI * get c [comp; j])))
      by (intros; lra).
    rewrite sum_upto_scal_l.
    rewrite (sum_upto_ext d
               (fun j => - (x j - get m [comp; j]) ^ 2 / (2 * get c [comp; j]))
               (fun j => -0.5 * ((x j - get m [comp; j]) ^ 2 / get c [comp; j]))).
    + rewrite sum_upto_scal_l. lra.
    + intros j Hj. specialize (Hc j Hj). unfold Rdiv.
      replace (/ (2 * get c [comp; j])) with (/ 2 * / get c [comp; j])
        by (field; lra).
      lra.
Qed.

Lemma e_step_posterior_entries
  (self : TFHMM.t) (X m c p : Tensor) (k d n : nat) :
  shaped self k d m c p -> shape X = [n; d] ->
  (forall comp j, (comp < k)%nat -> (j < d)%nat -> 0 < get c [comp; j]) ->
  (forall comp, (comp < k)%nat -> 0 < get p [comp]) ->
  exists resp,
    e_step self X = Ok resp /\ shape resp = [k; n] /\
    forall comp i, (comp < k)%nat -> (i < n)%nat ->
      get resp [comp; i]
      = get p [comp] * gaussian_density m c d comp (row X i)
        / sum_upto k (fun c' => get p [c'] * gaussian_density m c d c' (row X i)).
Proof.
  intros Hs HX Hc Hp.
  destruct (e_step_entries self X m c p k d n Hs HX) as (resp & He & Hsr & Hv).
  exists resp. split; [assumption|]. split; [assumption|].
  intros comp i Hcomp Hi. rewrite (Hv comp i Hcomp Hi). unfold responsibility.
  cbn zeta.
  rewrite (normalized_shift_free k (fun c' => log_joint m c p d c' (row X i))
             (max_upto k (fun c' => log_joint m c p d c' (row X i))) comp) by lia.
  assert (E : forall c', (c' < k)%nat ->
            Rtrigo_def.exp (log_joint m c p d c' (row X i))
            = get p [c'] * gaussian_density m c d c' (row X i)).
  { intros c' Hc'. unfold log_joint.
    rewrite exp_plus, exp_ln by (now apply Hp).
    rewrite exp_gaussian_log_density by (intros j Hj; now apply Hc). ring. }
  rewrite (E comp Hcomp). f_equal. apply sum_upto_ext. exact E.
Qed.


Lemma unit_variances_positive_2 (comp j : nat) :
  (comp < 2)%nat -> (j < 1)%nat -> 0 < get (of_rows 1 [[1]; [1]]) [comp; j].
Proof.
  intros Hc Hj. destruct comp as [|[|comp]]; [| |lia];
    (destruct j as [|j]; [cbn; lra | lia]).
Qed.

Lemma tenths_positive (comp : nat) :
  (comp < 2)%nat -> 0 < get (of_list [1 / 10; 9 / 10]) [comp].
Proof. intros Hc. destruct comp as [|[|comp]]; [cbn; lra | cbn; lra | lia]. Qed.


(** The first iteration of [fit] starts from such a state: the variances
    are 1 and the start probabilities a softmax. *)
Lemma fit_starts_from_positive_parameters
  (g : Generator) (self : TFHMM.t) (X : Tensor) (n d : nat) :
  shape X = [n; d] -> (0 <= n_components self)%Z ->
  let k := Z.to_nat (n_components self) in
  fit_init g self X = Ok (initial_state g self d, advance (advance (advance g))) /\
  shaped (initial_state g self d) k d
         (initial_means g k d) (ones [k; d]) (initial_startprob g k) /\
  (forall comp j, 0 < get (ones [k; d]) [comp; j]) /\
  (forall comp, (comp < k)%nat -> 0 < get (initial_startprob g k) [comp]).
Proof.
  intros HX Hk k. split; [now apply (fit_init_eq g self X n d)|].
  split; [apply initial_state_shaped|].
  split; [intros; cbn; lra | intros comp Hc; now apply initial_startprob_pos].
Qed.



(** X12.  From a state whose variances and start probabilities are all
    positive the E-step returns the posterior probabilities of the
    components: the responsibility of component [comp] for sample [i] is
    its start probability times its Gaussian density at the sample,
    divided by the sum of these products over the components (the
    logarithms, the shift by the column maximum and the exponential
    cancel). *)
Theorem e_step_responsibilities_are_posteriors
  (self : TFHMM.t) (X m c p : Tensor) (k d n : nat) :
  shaped self k d m c p -> shape X = [n; d] ->
  (forall comp j, (comp < k)%nat -> (j < d)%nat -> 0 < get c [comp; j]) ->
  (forall comp, (comp < k)%nat -> 0 < get p [comp]) ->
  exists resp,
    e_step self X = Ok resp /\ shape resp = [k; n] /\
    forall comp i, (comp < k)%nat -> (i < n)%nat ->
      get resp [comp; i]
      = get p [comp] * gaussian_density m c d comp (row X i)
        / sum_upto k (fun c' => get p [c'] * gaussian_density m c d c' (row X i)).
Proof.
  intros Hs HX Hc Hp.
  now apply (e_step_posterior_entries self X m c p k d n).
Qed.

Lemma e_step_responsibilities_are_posteriors_witness :
  (shaped two_components 2 1 (of_rows 1 [[0]; [1]]) (of_rows 1 [[1]; [1]])
          (of_list [1 / 10; 9 / 10]) /\
   shape one_sample = [1%nat; 1%nat] /\
   (forall comp j, (comp < 2)%nat -> (j < 1)%nat ->
      0 < get (of_rows 1 [[1]; [1]]) [comp; j]) /\
   (forall comp, (comp < 2)%nat -> 0 < get (of_list [1 / 10; 9 / 10]) [comp])) /\
  exists resp,
    e_step two_components one_sample = Ok resp /\ shape resp = [2%nat; 1%nat] /\
    forall comp i, (comp < 2)%nat -> (i < 1)%nat ->
      get resp [comp; i]
      = get (of_list [1 / 10; 9 / 10]) [comp]
        * gaussian_density (of_rows 1 [[0]; [1]]) (of_rows 1 [[1]; [1]]) 1 comp
            (row one_sample i)
        / sum_upto 2 (fun c' => get (of_list [1 / 10; 9 / 10]) [c']
             * gaussian_density (of_rows 1 [[0]; [1]]) (of_rows 1 [[1]; [1]]) 1 c'
                 (row one_sample i)).
Proof.
  split.
  - split; [exact two_components_shaped|]. split; [reflexivity|].
    split; [exact unit_variances_positive_2 | exact tenths_positive].
  - apply (e_step_responsibilities_are_posteriors two_components one_sample
             (of_rows 1 [[0]; [1]]) (of_rows 1 [[1]; [1]]) (of_list [1 / 10; 9 / 10])
             2 1 1);
      [exact two_components_shaped | reflexivity
       | exact unit_variances_positive_2 | exact tenths_positive].
Defined.

(** ** The divisors of the M-step *)

(** X13.  When every column of the responsibilities has sum 1, the
    divisors of the M-step, one for each component, add up to the number
    of samples. *)
Theorem m_step_denominators_add_up_to_the_number_of_samples
  (resp : Tensor) (k n : nat) :
  shape resp = [k; n] ->
  (forall i, (i < n)%nat -> sum_upto k (fun comp => get resp [comp; i]) = 1) ->
  exists denom,
    m_step_denom resp = Ok denom /\
    sum_upto k (fun comp => get denom [comp; O]) = INR n.
Proof.
  intros Hsr Hcol.
  destruct (m_step_denom_entries resp k n Hsr) as (denom & Hd & _ & Hdv).
  exists denom. split; [assumption|].
  rewrite (sum_upto_ext k _ (fun comp => sum_upto n (fun i => get resp [comp; i])))
    by (intros comp _; apply Hdv).
  rewrite sum_upto_swap.
  rewrite (sum_upto_ext n _ (fun _ => 1)) by exact Hcol.
  rewrite sum_upto_const. ring.
Qed.

Lemma even_resp_columns (i : nat) :
  (i < 2)%nat -> sum_upto 2 (fun comp => get even_resp [comp; i]) = 1.
Proof.
  intros Hi. destruct i as [|[|i]]; [cbn; lra | cbn; lra | lia].
Qed.

Lemma even_resp_occupancy (comp : nat) :
  (comp < 2)%nat -> sum_upto 2 (fun i => get even_resp [comp; i]) <> 0.
Proof.
  intros Hc. destruct comp as [|[|comp]]; [cbn; lra | cbn; lra | lia].
Qed.

Lemma m_step_denominators_add_up_to_the_number_of_samples_witness :
  (shape even_resp = [2%nat; 2%nat] /\
   (forall i, (i < 2)%nat -> sum_upto 2 (fun comp => get even_resp [comp; i]) = 1)) /\
  exists denom,
    m_step_denom even_resp = Ok denom /\
    sum_upto 2 (fun comp => get denom [comp; O]) = INR 2.
Proof.
  split; [split; [reflexivity | exact even_resp_columns]|].
  apply (m_step_denominators_add_up_to_the_number_of_samples even_resp 2 2);
    [reflexivity | exact even_resp_columns].
Defined.

(** X14.  The M-step keeps the total of the data: when every column of
    the responsibilities has sum 1 and no component has a zero divisor,
    the new means, each weighted by the divisor of its component, add up
    in every feature to the sum of the samples. *)
Theorem m_step_weighted_means_add_up_to_the_data
  (self : TFHMM.t) (X resp m c p : Tensor) (k d n : nat) :
  shaped self k d m c p -> shape X = [n; d] -> shape resp = [k; n] ->
  (forall i, (i < n)%nat -> sum_upto k (fun comp => get resp [comp; i]) = 1) ->
  (forall comp, (comp < k)%nat -> sum_upto n (fun i => get resp [comp; i]) <> 0) ->
  exists denom self' m',
    m_step_denom resp = Ok denom /\
    m_step self X resp = Ok self' /\ means_ self' = Some m' /\
    forall j, (j < d)%nat ->
      sum_upto k (fun comp => get denom [comp; O] * get m' [comp; j])
      = sum_upto n (fun i => get X [i; j]).
Proof.
  intros Hs HX Hsr Hcol Hocc.
  destruct (m_step_denom_entries resp k n Hsr) as (denom & Hd & _ & Hdv).
  destruct (m_step_entries self X resp m c p k d n Hs HX Hsr)
    as (self' & m' & c' & Hm & Hs' & _ & _ & _ & Hf).
  destruct Hs' as (Hm' & _).
  exists denom, self', m'. repeat (split; [assumption|]).
  intros j Hj.
  rewrite (sum_upto_ext k _
             (fun comp => sum_upto n (fun i => get resp [comp; i] * get X [i; j]))).
  - rewrite sum_upto_swap. apply sum_upto_ext. intros i Hi.
    rewrite sum_upto_scal_r, (Hcol i Hi). ring.
  - intros comp Hcomp. destruct (Hf comp j Hcomp Hj) as (Em & _).
    rewrite Em, Hdv. unfold occupancy.
    specialize (Hocc comp Hcomp). field. assumption.
Qed.

Lemma m_step_weighted_means_add_up_to_the_data_witness :
  (shaped two_components 2 1 (of_rows 1 [[0]; [1]]) (of_rows 1 [[1]; [1]])
          (of_list [1 / 10; 9 / 10]) /\
   shape two_samples = [2%nat; 1%nat] /\ shape even_resp = [2%nat; 2%nat] /\
   (forall i, (i < 2)%nat -> sum_upto 2 (fun comp => get even_resp [comp; i]) = 1) /\
   (forall comp, (comp < 2)%nat ->
      sum_upto 2 (fun i => get even_resp [comp; i]) <> 0)) /\
  exists denom self' m',
    m_step_denom even_resp = Ok denom /\
    m_step two_components two_samples even_resp = Ok self' /\
    means_ self' = Some m' /\
    forall j, (j < 1)%nat ->
      sum_upto 2 (fun comp => get denom [comp; O] * get m' [comp; j])
      = sum_upto 2 (fun i => get two_samples [i; j]).
Proof.
  split.
  - split; [exact two_components_shaped|]. split; [reflexivity|].
    split; [reflexivity|]. split; [exact even_resp_columns | exact even_resp_occupancy].
  - apply (m_step_weighted_means_add_up_to_the_data two_components two_samples
             even_resp (of_rows 1 [[0]; [1]]) (of_rows 1 [[1]; [1]])
             (of_list [1 / 10; 9 / 10]) 2 1 2);
      [exact two_components_shaped | reflexivity | reflexivity
       | exact even_resp_columns | exact even_resp_occupancy].
Defined.


Lemma far_components_shaped :
  shaped far_components 2 1 (of_rows 1 [[-1]; [1]]) (of_rows 1 [[1]; [1]])
         (of_list [1 / 2; 1 / 2]).
Proof. unfold shaped, far_components. cbn. repeat split; reflexivity. Qed.


(** On the samples 100 and 101 the responsibilities of the component of
    mean -1 are 0 in float32; the M-step on them has the divisor 0 for
    that component and makes its mean the quotient of 0 by it, while the
    other component gets the divisor 2. *)
Lemma m_step_on_underflowed_responsibilities :
  exists denom self' m',
    m_step_denom underflowed_resp = Ok denom /\
    get denom [O; O] = 0 /\ get denom [1%nat; O] = 2 /\
    m_step far_components far_samples underflowed_resp = Ok self' /\
    means_ self' = Some m' /\
    get m' [O; O] = 0 / get denom [O; O].
Proof.
  destruct (m_step_denom_entries underflowed_resp 2 2 eq_refl)
    as (denom & Hd & _ & Hdv).
  destruct (m_step_entries far_components far_samples underflowed_resp _ _ _ 2 1 2
              far_components_shaped eq_refl eq_refl)
    as (self' & m' & c' & Hm & Hs' & _ & _ & _ & Hf).
  destruct Hs' as (Hm' & _).
  exists denom, self', m'. split; [assumption|].
  split; [rewrite Hdv; unfold occupancy; cbn; lra|].
  split; [rewrite Hdv; unfold occupancy; cbn; lra|].
  repeat (split; [assumption|]).
  destruct (Hf O O ltac:(lia) ltac:(lia)) as (Em & _).
  rewrite Em, Hdv. f_equal. cbn. lra.
Qed.
